(** * minato: resolution of identifiers to cached local paths

    A shallow embedding of [minato/minato.py] (class [Minato]) and of the
    module-level wrappers of [minato/__init__.py], over an explicit model of
    the disk, of the metadata store and of the external collaborators. *)

From Stdlib Require Import ZArith Lia Ascii String.
From stdpp Require Import gmap strings list fin_maps pretty.

Local Open Scope string_scope.

(** ** Python strings *)

Module PyStr.

(** [c in s] for a one-character needle. *)
Fixpoint contains (c : ascii) (s : string) : bool :=
  match s with
  | EmptyString => false
  | String d rest => Ascii.eqb d c || contains c rest
  end.

(** [s.rsplit(c, 1)]: the split at the last occurrence of [c]; [None]
    when [c] does not occur (Python then returns the one-element list
    [[s]], which the caller never unpacks: it tests [c in s] first). *)
Fixpoint rsplit1 (c : ascii) (s : string) : option (string * string) :=
  match s with
  | EmptyString => None
  | String d rest =>
      match rsplit1 c rest with
      | Some (outer, inner) => Some (String d outer, inner)
      | None => if Ascii.eqb d c then Some (EmptyString, rest) else None
      end
  end.

(** [s.startswith(p)]. *)
Definition startswith (p s : string) : bool := String.prefix p s.

(** [s.split(c)]: the pieces between the occurrences of [c]. *)
Fixpoint split (c : ascii) (s : string) : list string :=
  match s with
  | EmptyString => [EmptyString]
  | String d rest =>
      if Ascii.eqb d c then EmptyString :: split c rest
      else match split c rest with
           | piece :: pieces => String d piece :: pieces
           | [] => [String d EmptyString]
           end
  end.

(** [s.lstrip(c)]. *)
Fixpoint lstrip (c : ascii) (s : string) : string :=
  match s with
  | EmptyString => EmptyString
  | String d rest => if Ascii.eqb d c then lstrip c rest else s
  end.

(** [sep.join(pieces)]. *)
Fixpoint join (sep : string) (pieces : list string) : string :=
  match pieces with
  | [] => EmptyString
  | [piece] => piece
  | piece :: rest => piece ++ sep ++ join sep rest
  end.

End PyStr.

(** ** Exceptions

    The classes the resolver can meet.  [GeneratorExit] stands for the
    subclasses of [BaseException] that are neither [Exception] nor one of
    the two interruption signals. *)

Inductive exn : Type :=
  | ValueError          (* the spec's InvalidReference *)
  | TypeError
  | AttributeError
  | KeyError            (* the spec's NotFound *)
  | TransportError
  | ExtractionError
  | RecursionError
  | OtherError (msg : string)
  | SystemExit
  | KeyboardInterrupt
  | GeneratorExit.

(** [isinstance(e, Exception)]. *)
Definition is_Exception (e : exn) : bool :=
  match e with
  | SystemExit | KeyboardInterrupt | GeneratorExit => false
  | _ => true
  end.

(** The filter of [except (Exception, SystemExit, KeyboardInterrupt)]. *)
Definition rollback_catches (e : exn) : bool :=
  match e with
  | SystemExit | KeyboardInterrupt => true
  | _ => is_Exception e
  end.

Inductive Result (A : Type) : Type :=
  | Ok (a : A)
  | Raise (e : exn).
Arguments Ok {A} a.
Arguments Raise {A} e.

(** ** The disk *)

Inductive node : Type :=
  | File (archive : bool)   (* a regular file; the flag is its signature *)
  | Dir.

#[global] Instance node_eq_dec : EqDecision node.
Proof. solve_decision. Defined.

Module Disk.

(** [child] is [parent] itself or lies below it. *)
Definition within (parent child : string) : bool :=
  String.eqb parent child || PyStr.startswith (parent ++ "/") child.

Definition path_exists (p : string) (d : gmap string node) : bool :=
  bool_decide (is_Some (d !! p)).

Definition is_dir (p : string) (d : gmap string node) : bool :=
  bool_decide (d !! p = Some Dir).

(** Modelled from the spec: [minato.util.is_archive_file] is not among the
    sources; section 6 gives [isArchive(path) -> bool], decided by the
    signature of the file. *)
Definition is_archive_file (p : string) (d : gmap string node) : bool :=
  bool_decide (d !! p = Some (File true)).

(** Modelled from the spec: [minato.util.remove_file_or_directory] is not
    among the sources; section 4.2 has it delete a file or a whole
    directory tree and tolerate a path that is already missing. *)
Definition remove_file_or_directory (p : string) (d : gmap string node)
  : gmap string node :=
  filter (fun kv => within p kv.1 = false) d.

(** A file written at [p]. *)
Definition write_file (p : string) (archive : bool) (d : gmap string node)
  : gmap string node :=
  <[p := File archive]> d.

(** A directory created at [p] with the given entries below it. *)
Definition write_tree (p : string) (entries : list (string * node))
    (d : gmap string node) : gmap string node :=
  foldr (fun e acc => <[p ++ "/" ++ e.1 := e.2]> acc) (<[p := Dir]> d) entries.

(** The components pathlib keeps of the text of a POSIX path: the pieces
    between separators that are neither empty nor [.]; [..] is kept. *)
Definition parts (s : string) : list string :=
  List.filter (fun c => negb (String.eqb c "") && negb (String.eqb c "."))
              (PyStr.split "/" s).

(** The root pathlib reads off a text: exactly two leading separators are
    kept, one or more than two count as one. *)
Definition root (s : string) : string :=
  if PyStr.startswith "//" s && negb (PyStr.startswith "///" s) then "//"
  else if PyStr.startswith "/" s then "/"
  else "".

(** The path [a], given by its text, with the components [ps] added. *)
Definition extend (a : string) (ps : list string) : string :=
  match ps with
  | [] => a
  | _ =>
      (if String.eqb a "." then ""
       else if String.eqb a "/" || String.eqb a "//" then a
       else a ++ "/") ++ PyStr.join "/" ps
  end.

(** [a / b] of pathlib on POSIX, for a path [a] given by its text and a
    string [b]: an absolute right operand replaces the left one, a
    relative one adds its components. *)
Definition path_join (a b : string) : string :=
  if PyStr.startswith "/" b then root b ++ PyStr.join "/" (parts b)
  else extend a (parts b).

(** Whether components climb above the directory they start in: a [..]
    met at depth zero. *)
Fixpoint escapes (depth : nat) (cs : list string) : bool :=
  match cs with
  | [] => false
  | c :: rest =>
      if String.eqb c ".." then
        match depth with
        | O => true
        | S depth' => escapes depth' rest
        end
      else escapes (S depth) rest
  end.

(** Modelled from the spec: [minato.util.extract_path] is not among the
    sources; section 4.2 step 1 has the inner path of a nested reference
    normalised: leading path separators are stripped, and a path with a
    component that would escape the directory through parent traversal is
    rejected.  The rejection is taken to be the spec's [InvalidReference]. *)
Definition normalize_inner (s : string) : Result string :=
  let stripped := PyStr.lstrip "/" s in
  if escapes 0 (parts stripped) then Raise ValueError else Ok stripped.

End Disk.

(** ** Records of the metadata store, and the world the resolver runs in *)

Record CachedFile : Type := mkCachedFile {
  id : Z;
  url : string;
  local_path : string;
  extraction_path : option string;
  created_at : Z;
  updated_at : Z
}.

Definition set_extraction_path (ep : option string) (c : CachedFile) : CachedFile :=
  mkCachedFile (id c) (url c) (local_path c) ep (created_at c) (updated_at c).

Definition set_updated_at (t : Z) (c : CachedFile) : CachedFile :=
  mkCachedFile (id c) (url c) (local_path c) (extraction_path c) (created_at c) t.

(** A row of the store's table.  The table is keyed by the unique [url], so
    the row holds the other columns. *)
Record Row : Type := mkRow {
  row_id : Z;
  row_local_path : string;
  row_extraction_path : option string;
  row_created_at : Z;
  row_updated_at : Z
}.

Definition to_record (u : string) (r : Row) : CachedFile :=
  mkCachedFile (row_id r) u (row_local_path r) (row_extraction_path r)
               (row_created_at r) (row_updated_at r).

Definition to_row (c : CachedFile) : Row :=
  mkRow (id c) (local_path c) (extraction_path c) (created_at c) (updated_at c).

(** What the collaborators and the store were asked to do, oldest first.
    A transfer and an extraction record the exception they ended with, if
    any; an extraction also records whether its destination was free. *)
Inductive event : Type :=
  | EvDownload (src dst : string) (failure : option exn)
  | EvExtract (src dst : string) (fresh : bool) (failure : option exn)
  | EvRemove (p : string)
  | EvAdd (u : string)
  | EvUpdate (u : string)
  | EvDelete (u : string)
  | EvOpen (target mode : string).

Definition is_download (e : event) : bool :=
  match e with EvDownload _ _ _ => true | _ => false end.
Definition is_extract (e : event) : bool :=
  match e with EvExtract _ _ _ _ => true | _ => false end.
Definition is_update (e : event) : bool :=
  match e with EvUpdate _ => true | _ => false end.

Definition failure_of (e : event) : option exn :=
  match e with
  | EvDownload _ _ f | EvExtract _ _ _ f => f
  | _ => None
  end.

Record World : Type := mkWorld {
  disk : gmap string node;          (* the filesystem *)
  rows : gmap string Row;           (* the store's table, by its unique url *)
  next_id : Z;
  now : Z;                          (* the clock, in days *)
  locked : bool;                    (* the store's lock *)
  trace : list event
}.

Definition set_disk (d : gmap string node) (w : World) : World :=
  mkWorld d (rows w) (next_id w) (now w) (locked w) (trace w).
Definition set_rows (r : gmap string Row) (w : World) : World :=
  mkWorld (disk w) r (next_id w) (now w) (locked w) (trace w).
Definition set_next_id (n : Z) (w : World) : World :=
  mkWorld (disk w) (rows w) n (now w) (locked w) (trace w).
Definition set_now (t : Z) (w : World) : World :=
  mkWorld (disk w) (rows w) (next_id w) t (locked w) (trace w).
Definition set_locked (b : bool) (w : World) : World :=
  mkWorld (disk w) (rows w) (next_id w) (now w) b (trace w).
Definition log (e : event) (w : World) : World :=
  mkWorld (disk w) (rows w) (next_id w) (now w) (locked w) (trace w ++ [e]).

Definition downloads (w : World) : nat := length (List.filter is_download (trace w)).
Definition extractions (w : World) : nat := length (List.filter is_extract (trace w)).
Definition updates (w : World) : nat := length (List.filter is_update (trace w)).

(** ** A state and exception monad for Python code *)

Definition M (S A : Type) : Type := S -> Result A * S.

#[global] Instance M_ret {S} : MRet (M S) := fun A a s => (Ok a, s).
#[global] Instance M_bind {S} : MBind (M S) := fun A B f m s =>
  match m s with
  | (Ok a, s') => f a s'
  | (Raise e, s') => (Raise e, s')
  end.

Definition raise {S A} (e : exn) : M S A := fun s => (Raise e, s).
Definition gets {S A} (f : S -> A) : M S A := fun s => (Ok (f s), s).
Definition modify {S} (f : S -> S) : M S unit := fun s => (Ok tt, f s).
Definition when {S} (b : bool) (m : M S unit) : M S unit := if b then m else mret tt.

(** [try: body / except (Exception, SystemExit, KeyboardInterrupt): handler; raise].
    An exception of the handler itself replaces the one being handled. *)
Definition try_rollback {S A} (body : M S A) (handler : M S unit) : M S A := fun s =>
  match body s with
  | (Ok a, s') => (Ok a, s')
  | (Raise e, s') =>
      if rollback_catches e then
        match handler s' with
        | (Ok _, s'') => (Raise e, s'')
        | (Raise e', s'') => (Raise e', s'')
        end
      else (Raise e, s')
  end.

(** ** External collaborators

    The modules [minato.cache], [minato.config], [minato.util] and
    [minato.filesystems] are not among the sources.  What they decide is a
    parameter of the development, gathered in [Env]; what they do to the
    disk and to the store is modelled from the specification where they are
    used.  A transfer delivers a file that is an archive or not, or fails
    and may leave a partial file; an extraction delivers the entries of the
    archive, or fails and may leave some of them. *)

Inductive fetch_outcome : Type :=
  | Fetched (archive : bool)
  | FetchFailed (e : exn) (partial : option bool).

Inductive unpack_outcome : Type :=
  | Unpacked (entries : list (string * node))
  | UnpackFailed (e : exn) (partial : option (list (string * node))).

Record Env : Type := mkEnv {
  (* minato.cache: the deterministic location of the artifact of a url *)
  artifact_path : string -> string;
  (* minato.config: the expiration window, in days *)
  expire_days : option Z;
  (* minato.util.is_local: decided on the reference alone *)
  is_local : string -> bool;
  (* minato.util.extract_path: the path in a reference, or a rejection *)
  extract_path : string -> Result string;
  (* minato.filesystems: what a transfer of this url does in this world *)
  transport : World -> string -> fetch_outcome;
  (* the archive library: what unpacking this archive does in this world *)
  unpacker : World -> string -> unpack_outcome
}.

Definition of_result {S A} (r : Result A) : M S A := fun s => (r, s).

(** ** minato.util and minato.filesystems, acting on the world *)

Module Util.
Section WithEnv.
Variable env : Env.

Definition path_exists (p : string) : M World bool :=
  gets (fun w => Disk.path_exists p (disk w)).

Definition is_dir (p : string) : M World bool :=
  gets (fun w => Disk.is_dir p (disk w)).

(** [minato.util.is_archive_file], read off the disk of the world. *)
Definition is_archive_file (p : string) : M World bool :=
  gets (fun w => Disk.is_archive_file p (disk w)).

(** [minato.util.remove_file_or_directory], acting on the disk of the world. *)
Definition remove_file_or_directory (p : string) : M World unit :=
  modify (fun w =>
    log (EvRemove p) (set_disk (Disk.remove_file_or_directory p (disk w)) w)).

(** Modelled from the spec: [minato.filesystems.download] is not among
    the sources; section 6 has it write the resource fully to the
    destination or fail with a transport error.  A failed or interrupted
    transfer may leave a partial file behind. *)
Definition download (u dst : string) : M World unit := fun w =>
  match transport env w u with
  | Fetched a =>
      (Ok tt, log (EvDownload u dst None)
                  (set_disk (Disk.write_file dst a (disk w)) w))
  | FetchFailed e None =>
      (Raise e, log (EvDownload u dst (Some e)) w)
  | FetchFailed e (Some a) =>
      (Raise e, log (EvDownload u dst (Some e))
                    (set_disk (Disk.write_file dst a (disk w)) w))
  end.

(** Modelled from the spec: [minato.util.extract_archive_file] is not
    among the sources; section 6 has it materialise the archive's
    contents into the destination directory or fail with an extraction
    error.  A failed or interrupted extraction may leave a partial
    directory behind. *)
Definition extract_archive_file (src dst : string) : M World unit := fun w =>
  let fresh := negb (Disk.path_exists dst (disk w)) in
  match unpacker env w src with
  | Unpacked es =>
      (Ok tt, log (EvExtract src dst fresh None)
                  (set_disk (Disk.write_tree dst es (disk w)) w))
  | UnpackFailed e None =>
      (Raise e, log (EvExtract src dst fresh (Some e)) w)
  | UnpackFailed e (Some es) =>
      (Raise e, log (EvExtract src dst fresh (Some e))
                    (set_disk (Disk.write_tree dst es (disk w)) w))
  end.

(** Modelled from the spec: [minato.filesystems.open_file] is not among
    the sources; section 6 has it return a stream for the target, which
    identifies the stream here. *)
Definition open_file (target mode : string) : M World string :=
  _ ← modify (log (EvOpen target mode));
  mret target.
End WithEnv.
End Util.

(** ** minato.cache.Cache *)

Module Cache.
Section WithEnv.
Variable env : Env.

(** Modelled from the spec: [Cache.__contains__] is not among the sources;
    section 4.1 has [contains(url) -> bool]. *)
Definition contains (u : string) : M World bool :=
  gets (fun w => bool_decide (is_Some (rows w !! u))).

(** Modelled from the spec: [Cache.by_url] is not among the sources;
    section 4.1 has it fail with [NotFound] when the url is absent. *)
Definition by_url (u : string) : M World CachedFile := fun w =>
  match rows w !! u with
  | Some r => (Ok (to_record u r), w)
  | None => (Raise KeyError, w)
  end.

(** Modelled from the spec: [Cache.by_id] is not among the sources;
    section 4.1 has it fail with [NotFound] when the id is absent. *)
Definition by_id (i : Z) : M World CachedFile := fun w =>
  match List.find (fun kr => Z.eqb (row_id kr.2) i) (map_to_list (rows w)) with
  | Some kr => (Ok (to_record kr.1 kr.2), w)
  | None => (Raise KeyError, w)
  end.

(** Modelled from the spec: [Cache.add] is not among the sources;
    section 4.1 has it create and persist a new record with the
    deterministic [local_path] and no [extraction_path]. *)
Definition add (u : string) : M World CachedFile := fun w =>
  let c := mkCachedFile (next_id w) u (artifact_path env u) None (now w) (now w) in
  (Ok c, log (EvAdd u)
         (set_next_id (next_id w + 1) (set_rows (<[u := to_row c]> (rows w)) w))).

(** Modelled from the spec: [Cache.update] is not among the sources;
    section 4.1 has it persist the record and bump [updated_at]. *)
Definition update (c : CachedFile) : M World unit :=
  modify (fun w =>
    log (EvUpdate (url c))
        (set_rows (<[url c := to_row (set_updated_at (now w) c)]> (rows w)) w)).

(** Modelled from the spec: [Cache.delete] is not among the sources;
    section 4.1 has it remove the row only. *)
Definition delete (c : CachedFile) : M World unit :=
  modify (fun w => log (EvDelete (url c)) (set_rows (base.delete (url c) (rows w)) w)).

(** Modelled from the spec: [Cache.is_expired] is not among the sources;
    section 4.1 has it false when no window is set, and otherwise true once
    [now - updated_at >= expire_days]. *)
Definition expired (c : CachedFile) (today : Z) : bool :=
  match expire_days env with
  | None => false
  | Some d => bool_decide (d ≤ today - updated_at c)%Z
  end.

Definition is_expired (c : CachedFile) : M World bool :=
  gets (fun w => expired c (now w)).

(** Modelled from the spec: [Cache.__enter__] and [Cache.__exit__] are not
    among the sources; section 4.1 has the lock taken on entry and released
    on every way out of [with self._cache: body]. *)
Definition with_cache {A} (body : M World A) : M World A := fun w =>
  let (r, w') := body (set_locked true w) in
  (r, set_locked false w').
End WithEnv.
End Cache.

(** ** The local variables of one run of the pipeline

    [cached_file] is a mutable object: the [except] clause reads the
    [extraction_path] the [try] body has assigned to it. *)

Record Frame : Type := mkFrame {
  world : World;
  cached_file : CachedFile
}.

Definition inW {A} (m : M World A) : M Frame A := fun f =>
  let (r, w') := m (world f) in (r, mkFrame w' (cached_file f)).

Definition with_object {A} (c : CachedFile) (m : M Frame A) : M World A := fun w =>
  let (r, f') := m (mkFrame w c) in (r, world f').

Definition assign_extraction_path (p : string) : M Frame unit :=
  modify (fun f => mkFrame (world f) (set_extraction_path (Some p) (cached_file f))).

(** ** Python calls: attribute lookup and argument binding *)

Module Py.

Inductive value : Type :=
  | VNone
  | VBool (b : bool)
  | VStr (s : string)
  | VInt (z : Z).

(** [bool(v)] and [str(v)]. *)
Definition truthy (v : value) : bool :=
  match v with
  | VNone => false
  | VBool b => b
  | VStr s => negb (String.eqb s "")
  | VInt z => negb (Z.eqb z 0)
  end.

Definition str (v : value) : string :=
  match v with
  | VNone => "None"
  | VBool true => "True"
  | VBool false => "False"
  | VStr s => s
  | VInt z => pretty z
  end.

(** A parameter after [self]: its name and its default, if any. *)
Record param : Type := mkParam { pname : string; pdefault : option value }.

Fixpoint assoc {A} (k : string) (l : list (string * A)) : option A :=
  match l with
  | [] => None
  | (k', a) :: rest => if String.eqb k' k then Some a else assoc k rest
  end.

(** Positional arguments fill the parameters from the left, keywords and
    defaults the others. *)
Fixpoint bind_params (ps : list param) (pos : list value)
    (kw : list (string * value)) : Result (list (string * value)) :=
  match ps with
  | [] =>
      match pos with
      | [] => Ok []
      | _ :: _ => Raise TypeError          (* too many positional arguments *)
      end
  | p :: ps' =>
      match pos with
      | v :: pos' =>
          match assoc (pname p) kw with
          | Some _ => Raise TypeError      (* multiple values for argument *)
          | None =>
              match bind_params ps' pos' kw with
              | Ok rest => Ok ((pname p, v) :: rest)
              | Raise e => Raise e
              end
          end
      | [] =>
          match assoc (pname p) kw, pdefault p with
          | Some v, _ | None, Some v =>
              match bind_params ps' [] kw with
              | Ok rest => Ok ((pname p, v) :: rest)
              | Raise e => Raise e
              end
          | None, None => Raise TypeError  (* missing required argument *)
          end
      end
  end.

Definition accepts (ps : list param) (k : string) : bool :=
  existsb (String.eqb k) (map pname ps).

Definition bind_call (ps : list param) (pos : list value)
    (kw : list (string * value)) : Result (list (string * value)) :=
  if forallb (fun kv => accepts ps kv.1) kw
  then bind_params ps pos kw
  else Raise TypeError.                    (* unexpected keyword argument *)

Inductive attribute : Type :=
  | Method (params : list param) (body : list (string * value) -> M World value)
  | Property.

(** [getattr(obj, name)] through the class, then the call. *)
Definition getattr (cls : list (string * attribute)) (name : string)
  : Result attribute :=
  match assoc name cls with
  | Some a => Ok a
  | None => Raise AttributeError
  end.

Definition call_method (cls : list (string * attribute)) (name : string)
    (pos : list value) (kw : list (string * value)) : M World value :=
  a ← of_result (getattr cls name);
  match a with
  | Method ps body =>
      args ← of_result (bind_call ps pos kw);
      body args
  | Property => raise TypeError            (* the value is not callable *)
  end.

(** The value bound to a parameter. *)
Definition arg (args : list (string * value)) (k : string) : value :=
  default VNone (assoc k args).

End Py.

(** ** minato.minato.Minato *)

Module Minato.
Section WithEnv.
Variable env : Env.

(** [str(local_path) + "-extracted"] *)
Definition extracted_name (lp : string) : string := lp ++ "-extracted".

(** [Minato.download]: a pass-through to the transport. *)
Definition download (u filename : string) : M World unit :=
  Util.download env u filename.

(** The body of the [try] statement of [cached_path].  [Some p] is the
    [return] inside the [try]; [None] falls through to the [return] that
    ends the function. *)
Definition try_body (extract force_download force_extract : bool)
  : M Frame (option string) :=
  lp ← gets (fun f => local_path (cached_file f));
  missing ← inW (b ← Util.path_exists lp; mret (negb b));
  expired ← (c ← gets cached_file; inW (Cache.is_expired env c));
  downloaded ←
    (if missing || expired || force_download
     then u ← gets (fun f => url (cached_file f));
          _ ← inW (download u lp);
          mret true
     else mret false);
  ep ← gets (fun f => extraction_path (cached_file f));
  archive ← inW (Util.is_archive_file lp);
  extracted ←
    (if ((extract && negb (bool_decide (is_Some ep)))
         || (downloaded && bool_decide (is_Some ep))
         || force_extract) && archive
     then _ ← assign_extraction_path (extracted_name lp);
          present ← inW (Util.path_exists (extracted_name lp));
          _ ← when present (inW (Util.remove_file_or_directory (extracted_name lp)));
          _ ← inW (Util.extract_archive_file env lp (extracted_name lp));
          mret true
     else mret false);
  _ ← when (downloaded || extracted)
        (c ← gets cached_file; inW (Cache.update c));
  ep' ← gets (fun f => extraction_path (cached_file f));
  if (extract || force_extract) && bool_decide (is_Some ep')
  then mret ep'
  else mret None.

(** The [except] clause, before its [raise]. *)
Definition rollback : M Frame unit :=
  lp ← gets (fun f => local_path (cached_file f));
  _ ← inW (Util.remove_file_or_directory lp);
  ep ← gets (fun f => extraction_path (cached_file f));
  match ep with
  | Some p => inW (Util.remove_file_or_directory p)
  | None => mret tt
  end.

(** The [with self._cache:] block of [cached_path] and the [return] after it. *)
Definition pipeline (u : string) (extract force_download force_extract : bool)
  : M World string :=
  Cache.with_cache (
    known ← Cache.contains u;
    c ← (if (known : bool) then Cache.by_url u else Cache.add env u);
    with_object c (
      r ← try_rollback (try_body extract force_download force_extract) rollback;
      match r with
      | Some p => mret p
      | None => gets (fun f => local_path (cached_file f))
      end)).

(** [cached_path], by recursion on the nesting of the identifier; the
    outer reference is shorter than the identifier, so a fuel above its
    length is never used up (see [cached_path_rec_fuel]). *)
Fixpoint cached_path_rec (fuel : nat) (url_or_filename : string)
    (extract force_download force_extract : bool) : M World string :=
  match fuel with
  | O => raise RecursionError
  | S fuel' =>
      match PyStr.rsplit1 "!" url_or_filename with
      | Some (remote_archive_path, file_path) =>
          archive_path ← cached_path_rec fuel' remote_archive_path
                            true force_download force_extract;
          d ← Util.is_dir archive_path;
          if negb d then raise ValueError
          else
            file_path' ← of_result (extract_path env file_path);
            mret (Disk.path_join archive_path file_path')
      | None =>
          if is_local env url_or_filename then
            u ← of_result (extract_path env url_or_filename);
            archive ← Util.is_archive_file u;
            if negb extract && negb archive then mret u
            else pipeline u extract force_download force_extract
          else pipeline url_or_filename extract force_download force_extract
      end
  end.

Definition cached_path (url_or_filename : string)
    (extract force_download force_extract : bool) : M World string :=
  cached_path_rec (S (String.length url_or_filename)) url_or_filename
                  extract force_download force_extract.

(** The test of [open] that decides whether the target goes through
    [cached_path]. *)
Definition open_uses_cache (mode : string) (use_cache : bool) : bool :=
  negb (PyStr.contains "a" mode && PyStr.contains "w" mode
        && PyStr.contains "x" mode && PyStr.contains "+" mode)
  && use_cache.

(** [open], up to its [yield]: the stream handed to the caller. *)
Definition open (url_or_filename mode : string)
    (extract use_cache force_download force_extract : bool) : M World string :=
  target ← (if open_uses_cache mode use_cache
            then cached_path url_or_filename extract force_download force_extract
            else mret url_or_filename);
  Util.open_file target mode.

(** [upload]: the local file is read and written to the remote stream. *)
Definition upload (filename u : string) : M World unit :=
  _ ← Util.open_file filename "rb";
  _ ← Util.open_file u "wb";
  mret tt.

(** [remove]: by id or by url. *)
Definition remove (id_or_url : Z + string) : M World unit :=
  c ← (match id_or_url with
       | inl cache_id => Cache.by_id cache_id
       | inr u => Cache.by_url u
       end);
  _ ← Util.remove_file_or_directory (local_path c);
  _ ← (match extraction_path c with
       | Some p => Util.remove_file_or_directory p
       | None => mret tt
       end);
  Cache.delete c.
End WithEnv.
End Minato.

(** The attributes of class [Minato], with the signatures of its methods. *)
Module MinatoClass.
Import Py.

Definition id_or_url (v : value) : Z + string :=
  match v with
  | VInt z => inl z
  | VBool b => inl (if b then 1%Z else 0%Z)     (* [bool] is an [int] *)
  | _ => inr (str v)
  end.

Definition attributes (env : Env) : list (string * attribute) :=
  [ ("cache", Property);
    ("open",
      Method [ mkParam "url_or_filename" None;
               mkParam "mode" (Some (VStr "r"));
               mkParam "extract" (Some (VBool false));
               mkParam "use_cache" (Some (VBool true));
               mkParam "force_download" (Some (VBool false));
               mkParam "force_extract" (Some (VBool false)) ]
        (fun a =>
           fp ← Minato.open env (str (arg a "url_or_filename")) (str (arg a "mode"))
                  (truthy (arg a "extract")) (truthy (arg a "use_cache"))
                  (truthy (arg a "force_download")) (truthy (arg a "force_extract"));
           mret (VStr fp)));
    ("cached_path",
      Method [ mkParam "url_or_filename" None;
               mkParam "extract" (Some (VBool false));
               mkParam "force_download" (Some (VBool false));
               mkParam "force_extract" (Some (VBool false)) ]
        (fun a =>
           p ← Minato.cached_path env (str (arg a "url_or_filename"))
                 (truthy (arg a "extract"))
                 (truthy (arg a "force_download")) (truthy (arg a "force_extract"));
           mret (VStr p)));
    ("download",
      Method [ mkParam "url" None; mkParam "filename" None ]
        (fun a =>
           _ ← Minato.download env (str (arg a "url")) (str (arg a "filename"));
           mret VNone));
    ("upload",
      Method [ mkParam "filename" None; mkParam "url" None ]
        (fun a =>
           _ ← Minato.upload (str (arg a "filename")) (str (arg a "url"));
           mret VNone));
    ("remove",
      Method [ mkParam "id_or_url" None ]
        (fun a =>
           _ ← Minato.remove (id_or_url (arg a "id_or_url"));
           mret VNone)) ].

End MinatoClass.

(** ** The module-level functions of the package ([minato/__init__.py]) *)

Module Package.
Import Py.

Definition of_option {A} (f : A -> value) (o : option A) : value :=
  match o with
  | Some a => f a
  | None => VNone
  end.

Section WithConfig.
(** [Minato(Config.load(cache_root=...))]: the collaborators together
    with the configuration loaded for a cache root. *)
Variable Config_load : option string -> Env.

(** [open], up to the [yield] of its context manager. *)
Definition open (url_or_filename mode : string) (extract : bool)
    (auto_update : option bool) (use_cache force_download force_extract : bool)
    (cache_root : option string) (expire_days : option Z) : M World value :=
  let config := Config_load cache_root in
  call_method (MinatoClass.attributes config) "open"
    [ VStr url_or_filename ]
    [ ("mode", VStr mode);
      ("extract", VBool extract);
      ("auto_update", of_option VBool auto_update);
      ("use_cache", VBool use_cache);
      ("force_download", VBool force_download);
      ("force_extract", VBool force_extract);
      ("expire_days", of_option VInt expire_days) ].

Definition cached_path (url_or_filename : string) (extract : bool)
    (auto_update : option bool) (force_download force_extract retry : bool)
    (cache_root : option string) (expire_days : option Z) : M World value :=
  let config := Config_load cache_root in
  call_method (MinatoClass.attributes config) "cached_path"
    [ VStr url_or_filename ]
    [ ("extract", VBool extract);
      ("auto_update", of_option VBool auto_update);
      ("force_download", VBool force_download);
      ("force_extract", VBool force_extract);
      ("expire_days", of_option VInt expire_days);
      ("retry", VBool retry) ].

Definition remove_cache (url_or_filename : string) (cache_root : option string)
  : M World value :=
  let config := Config_load cache_root in
  call_method (MinatoClass.attributes config) "remove_cache"
    [ VStr url_or_filename ] [].

(** The three functions below go through the class, not an instance. *)
Definition download (u filename : string) : M World value :=
  call_method (MinatoClass.attributes (Config_load None)) "download"
    [ VStr u; VStr filename ] [].

Definition upload (filename u : string) : M World value :=
  call_method (MinatoClass.attributes (Config_load None)) "upload"
    [ VStr filename; VStr u ] [].

Definition delete (url_or_filename : string) : M World value :=
  call_method (MinatoClass.attributes (Config_load None)) "delete"
    [ VStr url_or_filename ] [].
End WithConfig.
End Package.

(** ** The pipeline, step by step

    The vocabulary in which the properties below are stated, and the steps
    of one run of the [try] statement written out one after the other;
    [pipeline_run] shows that they compose to [Minato.pipeline]. *)

Module Steps.
Section WithEnv.
Variable env : Env.

(** The record the pipeline works on: the one found for [u], or the one
    [add] creates. *)
Definition record_for (u : string) (w : World) : CachedFile :=
  match rows w !! u with
  | Some r => to_record u r
  | None => mkCachedFile (next_id w) u (artifact_path env u) None (now w) (now w)
  end.

(** The world once the lock is held and the record is at hand. *)
Definition entered (u : string) (w : World) : World :=
  match rows w !! u with
  | Some _ => set_locked true w
  | None => (Cache.add env u (set_locked true w)).2
  end.

(** The test of the first [if] of the [try] body. *)
Definition needs_download (c : CachedFile) (force_download : bool) (w : World) : bool :=
  negb (Disk.path_exists (local_path c) (disk w))
  || Cache.expired env c (now w) || force_download.

(** The test of the second [if], given the [downloaded] flag. *)
Definition needs_extraction (c : CachedFile) (extract force_extract downloaded : bool)
    (w : World) : bool :=
  ((extract && negb (bool_decide (is_Some (extraction_path c))))
   || (downloaded && bool_decide (is_Some (extraction_path c)))
   || force_extract)
  && Disk.is_archive_file (local_path c) (disk w).

(** The path the function returns when nothing fails. *)
Definition chosen (c : CachedFile) (extract force_extract : bool) : string :=
  match extraction_path c with
  | Some p => if extract || force_extract then p else local_path c
  | None => local_path c
  end.

Definition fetch (c : CachedFile) (force_download : bool) (w : World)
  : Result bool * World :=
  if needs_download c force_download w then
    match Util.download env (url c) (local_path c) w with
    | (Ok _, w1) => (Ok true, w1)
    | (Raise e, w1) => (Raise e, w1)
    end
  else (Ok false, w).

Definition clear_destination (p : string) (w : World) : World :=
  if Disk.path_exists p (disk w)
  then (Util.remove_file_or_directory p w).2
  else w.

Definition unpack (c : CachedFile) (extract force_extract downloaded : bool)
    (w : World) : Result bool * CachedFile * World :=
  if needs_extraction c extract force_extract downloaded w then
    let dst := Minato.extracted_name (local_path c) in
    let c' := set_extraction_path (Some dst) c in
    match Util.extract_archive_file env (local_path c) dst (clear_destination dst w) with
    | (Ok _, w3) => (Ok true, c', w3)
    | (Raise e, w3) => (Raise e, c', w3)
    end
  else (Ok false, c, w).

Definition persist (changed : bool) (c : CachedFile) (w : World) : World :=
  if changed then (Cache.update c w).2 else w.

Definition cleanup (c : CachedFile) (w : World) : World :=
  let w1 := (Util.remove_file_or_directory (local_path c) w).2 in
  match extraction_path c with
  | Some p => (Util.remove_file_or_directory p w1).2
  | None => w1
  end.

Definition settle (e : exn) (c : CachedFile) (w : World) : World :=
  if rollback_catches e then cleanup c w else w.

Definition run (c : CachedFile) (extract force_download force_extract : bool)
    (w : World) : Result string * World :=
  match fetch c force_download w with
  | (Raise e, w1) => (Raise e, settle e c w1)
  | (Ok downloaded, w1) =>
      match unpack c extract force_extract downloaded w1 with
      | (Raise e, c', w3) => (Raise e, settle e c' w3)
      | (Ok extracted, c', w3) =>
          (Ok (chosen c' extract force_extract),
           persist (downloaded || extracted) c' w3)
      end
  end.

(** The events a run has added to the trace. *)
Definition since (w w' : World) : list event :=
  drop (length (trace w)) (trace w').
End WithEnv.
End Steps.

(** ** Concrete collaborators and stores *)

Module Examples.

(** The cache keeps the artifact of [u] at [/cache/u]; nothing expires;
    a reference is local when it starts with a slash; every transfer
    delivers an archive that holds the one file [x.txt]. *)
Definition env_zip : Env :=
  mkEnv (fun u => "/cache/" ++ u) None (PyStr.startswith "/") (fun s => Ok s)
        (fun _ _ => Fetched true)
        (fun _ _ => Unpacked [("x.txt", File false)]).

(** The resource is an archive when first fetched and a plain file from
    then on. *)
Definition env_changing : Env :=
  mkEnv (fun u => "/cache/" ++ u) None (PyStr.startswith "/") (fun s => Ok s)
        (fun w _ => Fetched (Nat.eqb (downloads w) 0))
        (fun _ _ => Unpacked [("x.txt", File false)]).


(** Transfers work, the archive is corrupt: extraction is interrupted and
    leaves a partial directory. *)
Definition env_corrupt : Env :=
  mkEnv (fun u => "/cache/" ++ u) None (PyStr.startswith "/") (fun s => Ok s)
        (fun _ _ => Fetched true)
        (fun _ _ => UnpackFailed KeyboardInterrupt (Some [("x.txt", File false)])).

Definition empty_world : World := mkWorld ∅ ∅ 1 0 false [].

Definition a_url : string := "http://h/a.zip".

(** The artifact of [a_url] is in the cache, complete, and recorded. *)
Definition cached_world : World :=
  mkWorld {[ "/cache/http://h/a.zip" := File true ]}
          {[ a_url := mkRow 1 "/cache/http://h/a.zip" None 0 0 ]}
          2 0 false [].

End Examples.

(** ** minato.common.progress

    The progress bar measures time and rates in floating point and formats
    them.  Those computations are parameters here: the type of floats, the
    clock, the subtraction of two readings, the moving average, and the
    rendering of the line, which may raise.  The control flow around them
    is the source's. *)

Module ProgressBar.
Section WithHost.
Variable F : Type.                   (* float *)
Variable fzero : F.                  (* 0.0 *)
Variable clock : nat -> F.           (* the successive answers of time.time() *)
Variable fsub : F -> F -> F.         (* a - b *)
Variable ema_update : F -> F -> F.   (* EMA.update: the new value, from the old one and a sample *)
Variable T : Type.                   (* the items of the caller's iterable *)

(** [total_or_iterable]: [None], an [int] (a [bool] is the [int] 0 or 1),
    a collection with a length, or an iterator without one. *)
Inductive source : Type :=
  | SrcNone
  | SrcInt (n : Z)
  | SrcSized (items : list T)
  | SrcIterator (items : list T).

(** [self._iterable]. *)
Inductive iterable : Type :=
  | Counter                          (* _dummy_iterator() *)
  | Range (n : Z)                    (* range(n) *)
  | Sized (items : list T)
  | Iterator (items : list T).

(** What the bar yields: a number of the counter or of the range, or an
    item of the caller. *)
Inductive item : Type :=
  | Count (n : Z)
  | Elem (x : T).

(** [bool(total_or_iterable)]. *)
Definition truthy (a : source) : bool :=
  match a with
  | SrcNone => false
  | SrcInt n => negb (Z.eqb n 0)
  | SrcSized items => negb (Nat.eqb (length items) 0)
  | SrcIterator _ => true
  end.

(** The [k]-th item of an iterable, from 0, if it has that many. *)
Definition nth_item (it : iterable) (k : nat) : option item :=
  match it with
  | Counter => Some (Count (Z.of_nat k))
  | Range n => if Z.ltb (Z.of_nat k) n then Some (Count (Z.of_nat k)) else None
  | Sized items | Iterator items => Elem <$> items !! k
  end.

Record state : Type := mkState {
  iterable_of : iterable;            (* _iterable *)
  total : option Z;                  (* _total *)
  disable : bool;                    (* _disable *)
  iterations : Z;                    (* _iterations *)
  start_time : F;
  last_time : F;
  interval_ema : F;
  ticks : nat;                       (* how often the clock was read *)
  output : list string               (* what was written, oldest first *)
}.

(** Lines 113 to 162 of [show]: the line to print at a given time. *)
Variable render : state -> F -> Result string.

Definition esc : string := String (Ascii.ascii_of_nat 27) "".
Definition hide_cursor_and_clear : string :=
  esc ++ "[?25l" ++ esc ++ "[2K" ++ String (Ascii.ascii_of_nat 13) "".
Definition show_cursor : string :=
  esc ++ "[?25h" ++ String (Ascii.ascii_of_nat 10) "".

(** [time.time()]. *)
Definition time : M state F := fun st =>
  (Ok (clock (ticks st)),
   mkState (iterable_of st) (total st) (disable st) (iterations st)
           (start_time st) (last_time st) (interval_ema st) (S (ticks st))
           (output st)).

Definition write (text : string) : M state unit :=
  modify (fun st =>
    mkState (iterable_of st) (total st) (disable st) (iterations st)
            (start_time st) (last_time st) (interval_ema st) (ticks st)
            (output st ++ [text])).

Definition set_iterations (n : Z) : M state unit :=
  modify (fun st =>
    mkState (iterable_of st) (total st) (disable st) n
            (start_time st) (last_time st) (interval_ema st) (ticks st)
            (output st)).

Definition set_start_time (t : F) : M state unit :=
  modify (fun st =>
    mkState (iterable_of st) (total st) (disable st) (iterations st)
            t (last_time st) (interval_ema st) (ticks st) (output st)).

Definition set_last_time (t : F) : M state unit :=
  modify (fun st =>
    mkState (iterable_of st) (total st) (disable st) (iterations st)
            (start_time st) t (interval_ema st) (ticks st) (output st)).

Definition set_interval_ema (v : F) : M state unit :=
  modify (fun st =>
    mkState (iterable_of st) (total st) (disable st) (iterations st)
            (start_time st) (last_time st) v (ticks st) (output st)).

(** [Progress.__init__], the bar it leaves when it returns (see [Progress]
    for the count it refuses); [disabled_by_environment] is the module
    constant [DISABLE_PROGRESSBAR], [now_ticks] how often the clock was read
    before. *)
Definition init (total_or_iterable : source) (disable disabled_by_environment : bool)
    (now_ticks : nat) : state :=
  let it :=
    if truthy total_or_iterable then
      match total_or_iterable with
      | SrcInt n => Range n
      | SrcSized items => Sized items
      | SrcIterator items => Iterator items
      | SrcNone => Counter
      end
    else Counter in
  let total :=
    match it with
    | Range n => Some (Z.max 0 n)                 (* len(range(n)) *)
    | Sized items => Some (Z.of_nat (length items))
    | Counter | Iterator _ => None
    end in
  mkState it total (disable || disabled_by_environment) 0
          (clock now_ticks) (clock now_ticks) fzero (S now_ticks) [].

Definition OverflowError : exn := OtherError "OverflowError".

(** [Progress(total_or_iterable, disable=disable)], as the caller meets it:
    [len(range(n))] raises [OverflowError] for a count above [sys.maxsize],
    so [__init__] does not return and no bar is built; in every other case
    the bar is the one of [init]. *)
Definition Progress (maxsize : Z) (total_or_iterable : source)
    (disable disabled_by_environment : bool) (now_ticks : nat) : Result state :=
  match total_or_iterable with
  | SrcInt n =>
      if Z.ltb maxsize n then Raise OverflowError
      else Ok (init total_or_iterable disable disabled_by_environment now_ticks)
  | _ => Ok (init total_or_iterable disable disabled_by_environment now_ticks)
  end.

(** [show]. *)
Definition show : M state unit :=
  off ← gets disable;
  if (off : bool) then mret tt
  else
    t ← time;
    st ← gets (fun st => st);
    line ← of_result (render st t);
    write (hide_cursor_and_clear ++ line).

(** [update]. *)
Definition update (n : Z) : M state unit :=
  current_time ← time;
  last ← gets last_time;
  ema ← gets interval_ema;
  _ ← set_interval_ema (ema_update ema (fsub current_time last));
  so_far ← gets iterations;
  _ ← set_iterations (so_far + n);
  _ ← set_last_time current_time;
  show.

(** [__enter__] and [__exit__]. *)
Definition enter : M state unit :=
  _ ← set_iterations 0;
  t ← time;
  _ ← set_start_time t;
  show.

Definition exit : M state unit := write show_cursor.

(** [with self: body]: [__exit__] runs on every way out of the body, and
    not at all when [__enter__] raises. *)
Definition with_self {A} (body : M state A) : M state A := fun st =>
  match enter st with
  | (Raise e, st1) => (Raise e, st1)
  | (Ok _, st1) =>
      match body st1 with
      | (r, st2) => (r, (exit st2).2)
      end
  end.

(** The loop of [__iter__] over the items a [for] statement consumes to the
    end: each item is handed out, then [update()] runs. *)
Fixpoint yield_all (its : list item) : M state (list item) :=
  match its with
  | [] => mret []
  | x :: rest =>
      _ ← update 1;
      handed ← yield_all rest;
      mret (x :: handed)
  end.

(** [__iter__], for an iterable that ends: the items handed out. *)
Definition iter (its : list item) : M state (list item) :=
  _ ← set_iterations 0;
  t ← time;
  _ ← set_start_time t;
  with_self (yield_all its).

(** The items of an iterable that ends. *)
Definition items_of (it : iterable) : option (list item) :=
  match it with
  | Counter => None
  | Range n => Some (Count <$> (Z.of_nat <$> seq 0 (Z.to_nat n)))
  | Sized items | Iterator items => Some (Elem <$> items)
  end.
End WithHost.
End ProgressBar.

(** ** The line of the bar

    Lines 113 to 162 of [show], as far as they decide whether a line comes
    out at all.  The texts themselves are built by the caller's
    [sizeof_formatter], by [_format_time] and by [str.format] on floats;
    they are left to the host. *)

Module ProgressLine.
Section WithFormatting.
Variable F : Type.
Variable T : Type.
Variable Fields : Type.              (* template and contents *)

(** Lines 116 to 132: elapsed time and rate, the formatted count, time and
    rate, the postfixes and the description. *)
Variable fields : ProgressBar.state F T -> F -> Result Fields.

(** [self._sizeof_formatter] on an [int]. *)
Variable sizeof_formatter : Z -> Result string.

(** Lines 135 to 140 and line 162, for a bar without a total. *)
Variable unbounded_line : Fields -> Result string.

(** Lines 143 to 162, for a bar with a total that is not zero; the
    arguments are the text of the total, the total and the count. *)
Variable bounded_line : Fields -> string -> Z -> Z -> Result string.

Definition ZeroDivisionError : exn := OtherError "ZeroDivisionError".

Definition render (st : ProgressBar.state F T) (t : F) : Result string :=
  match fields st t with
  | Raise e => Raise e
  | Ok contents =>
      match ProgressBar.total F T st with
      | None => unbounded_line contents
      | Some total =>
          match sizeof_formatter total with                 (* total_width *)
          | Raise e => Raise e
          | Ok total_text =>
              (* percentage = 100 * self._iterations / self._total *)
              if Z.eqb total 0 then Raise ZeroDivisionError
              else bounded_line contents total_text total
                     (ProgressBar.iterations F T st)
          end
      end
  end.

(** The formatting of the fields and of the total returns normally. *)
Definition formatting_returns : Prop :=
  (forall st t, exists contents, fields st t = Ok contents)
  /\ exists text, sizeof_formatter 0 = Ok text.
End WithFormatting.
End ProgressLine.

(** ** More concrete collaborators and stores *)

Module Scenarios.

(** Every transfer delivers a plain file. *)
Definition env_plain : Env :=
  mkEnv (fun u => "/cache/" ++ u) None (PyStr.startswith "/") (fun s => Ok s)
        (fun _ _ => Fetched false)
        (fun _ _ => Unpacked []).

(** The transfer is torn down by an exception that is no [Exception] and
    leaves a partial file. *)
Definition env_torn : Env :=
  mkEnv (fun u => "/cache/" ++ u) None (PyStr.startswith "/") (fun s => Ok s)
        (fun _ _ => FetchFailed GeneratorExit (Some false))
        (fun _ _ => Unpacked []).

(** Two references are recorded, the first one extracted. *)
Definition two_records : World :=
  mkWorld {[ "/cache/http://h/a.zip" := File true;
             "/cache/http://h/a.zip-extracted" := Dir;
             "/cache/http://h/a.zip-extracted/x.txt" := File false;
             "/cache/http://h/b.txt" := File false ]}
          {[ "http://h/a.zip" := mkRow 1 "/cache/http://h/a.zip"
                                   (Some "/cache/http://h/a.zip-extracted") 0 0;
             "http://h/b.txt" := mkRow 2 "/cache/http://h/b.txt" None 0 0 ]}
          3 0 false [].

(** A plain local file. *)
Definition local_world : World :=
  mkWorld {[ "/data/notes.txt" := File false ]} ∅ 1 0 false [].

End Scenarios.

(** * Properties *)

(** ** Strings and paths *)

Section StringFacts.

Lemma rsplit1_None c s : PyStr.rsplit1 c s = None ↔ PyStr.contains c s = false.
Proof.
  induction s as [|d s IH]; simpl; [done|].
  destruct (PyStr.rsplit1 c s) as [[a b]|].
  - split; [done|]. intros [_ H]%orb_false_iff.
    apply IH in H. discriminate.
  - destruct (Ascii.eqb d c); simpl; [done|].
    split; intros _; [by apply IH | done].
Qed.

Lemma rsplit1_Some c s outer inner :
  PyStr.rsplit1 c s = Some (outer, inner) →
  s = outer ++ String c inner ∧ PyStr.contains c inner = false.
Proof.
  revert outer. induction s as [|d s IH]; intros outer; simpl; [done|].
  destruct (PyStr.rsplit1 c s) as [[a b]|] eqn:E.
  - intros [= <- <-]. destruct (IH a eq_refl) as [-> Hb]. done.
  - destruct (Ascii.eqb d c) eqn:Hd; [|done].
    intros [= <- <-]. apply Ascii.eqb_eq in Hd as ->.
    split; [done|]. by apply rsplit1_None.
Qed.

Lemma length_append (a b : string) :
  String.length (a ++ b) = (String.length a + String.length b)%nat.
Proof. induction a as [|x a IH]; simpl; [done|]. by rewrite IH. Qed.

Lemma rsplit1_shorter c s outer inner :
  PyStr.rsplit1 c s = Some (outer, inner) →
  (String.length outer < String.length s)%nat.
Proof.
  intros [-> _]%rsplit1_Some. rewrite length_append. simpl. lia.
Qed.

Lemma prefix_length (p s : string) :
  String.prefix p s = true → (String.length p ≤ String.length s)%nat.
Proof.
  revert s. induction p as [|x p IH]; intros [|y s]; simpl; try (done || lia).
  destruct (ascii_dec x y); [|done].
  intros H%IH. lia.
Qed.

Lemma within_refl p : Disk.within p p = true.
Proof. unfold Disk.within. by rewrite String.eqb_refl. Qed.

Lemma within_length p q :
  Disk.within p q = true → (String.length p ≤ String.length q)%nat.
Proof.
  unfold Disk.within, PyStr.startswith.
  intros [H%String.eqb_eq | H%prefix_length]%orb_true_iff.
  - by subst.
  - rewrite length_append in H. lia.
Qed.

(** The artifact is never inside its own extraction directory. *)
Lemma artifact_outside_extraction lp :
  Disk.within (Minato.extracted_name lp) lp = false.
Proof.
  destruct (Disk.within _ _) eqn:E; [|done].
  apply within_length in E. unfold Minato.extracted_name in E.
  rewrite length_append in E. simpl in E. lia.
Qed.


(** What is left after stripping the leading separators is relative, and
    has the components of the whole. *)
Lemma lstrip_relative s : PyStr.startswith "/" (PyStr.lstrip "/" s) = false.
Proof.
  induction s as [|d s IH]; [done|].
  cbn [PyStr.lstrip]. destruct (Ascii.eqb d "/") eqn:Hd; [done|].
  unfold PyStr.startswith. cbn [String.prefix].
  destruct (ascii_dec "/" d) as [<-|_]; [|done].
  by rewrite Ascii.eqb_refl in Hd.
Qed.

Lemma parts_lstrip s : Disk.parts (PyStr.lstrip "/" s) = Disk.parts s.
Proof.
  induction s as [|d s IH]; [done|].
  cbn [PyStr.lstrip]. destruct (Ascii.eqb d "/") eqn:Hd; [|done].
  rewrite IH. unfold Disk.parts. cbn [PyStr.split]. by rewrite Hd.
Qed.

(** Joining a stripped path adds its components to the left operand. *)
Lemma path_join_lstrip a s :
  Disk.path_join a (PyStr.lstrip "/" s) = Disk.extend a (Disk.parts s).
Proof. unfold Disk.path_join. by rewrite lstrip_relative, parts_lstrip. Qed.
End StringFacts.

(** ** The disk *)

Section DiskFacts.
Implicit Types d : gmap string node.

Lemma lookup_remove p d q :
  Disk.remove_file_or_directory p d !! q
  = if Disk.within p q then None else d !! q.
Proof.
  unfold Disk.remove_file_or_directory.
  destruct (Disk.within p q) eqn:E.
  - apply map_lookup_filter_None. right. intros x _. simpl. by rewrite E.
  - destruct (d !! q) as [x|] eqn:Hq.
    + by apply map_lookup_filter_Some.
    + apply map_lookup_filter_None. by left.
Qed.

Lemma remove_gone p d q :
  Disk.within p q = true → Disk.path_exists q (Disk.remove_file_or_directory p d) = false.
Proof.
  intros H. unfold Disk.path_exists. rewrite lookup_remove, H.
  apply bool_decide_eq_false. by intros [? ?].
Qed.

Lemma lookup_write_tree_outside p es d q :
  Disk.within p q = false → Disk.write_tree p es d !! q = d !! q.
Proof.
  unfold Disk.within, PyStr.startswith.
  intros [Hne Hpre]%orb_false_iff. apply String.eqb_neq in Hne.
  induction es as [|[r n] es IH]; simpl.
  - by rewrite lookup_insert_ne.
  - rewrite lookup_insert_ne; [done|]. intros <-.
    assert (String.prefix (p ++ "/") (p ++ "/" ++ r) = true) as Hp; [|congruence].
    clear. induction p as [|x p IH]; simpl.
    + by destruct r.
    + destruct (ascii_dec x x); [done|congruence].
Qed.

Lemma lookup_write_tree_root p es d : Disk.write_tree p es d !! p = Some Dir.
Proof.
  induction es as [|[r n] es IH]; simpl.
  - by rewrite lookup_insert_eq.
  - rewrite lookup_insert_ne; [done|]. intros H.
    apply (f_equal String.length) in H. rewrite !length_append in H.
    simpl in H. lia.
Qed.

Lemma write_tree_keeps_outside p es d q :
  Disk.within p q = false →
  Disk.path_exists q (Disk.write_tree p es d) = Disk.path_exists q d.
Proof. intros H. unfold Disk.path_exists. by rewrite lookup_write_tree_outside. Qed.

Lemma write_tree_exists p es d : Disk.path_exists p (Disk.write_tree p es d) = true.
Proof.
  unfold Disk.path_exists. rewrite lookup_write_tree_root.
  by apply bool_decide_eq_true.
Qed.

Lemma written_file_is_archive p a d :
  Disk.is_archive_file p (Disk.write_file p a d) = a.
Proof.
  unfold Disk.is_archive_file, Disk.write_file. rewrite lookup_insert_eq.
  destruct a; [by apply bool_decide_eq_true | by apply bool_decide_eq_false].
Qed.

Lemma written_file_exists p a d : Disk.path_exists p (Disk.write_file p a d) = true.
Proof.
  unfold Disk.path_exists, Disk.write_file. rewrite lookup_insert_eq.
  by apply bool_decide_eq_true.
Qed.

Lemma write_file_keeps p a d q :
  Disk.path_exists q d = true → Disk.path_exists q (Disk.write_file p a d) = true.
Proof.
  unfold Disk.path_exists, Disk.write_file.
  intros H%bool_decide_eq_true. apply bool_decide_eq_true.
  destruct (decide (p = q)) as [->|Hne].
  - rewrite lookup_insert_eq. eauto.
  - by rewrite lookup_insert_ne.
Qed.

End DiskFacts.

(** ** The pipeline as a composition of its steps *)

Section PipelineRun.
Variable env : Env.

Local Ltac crunch :=
  repeat (cbn;
    match goal with
    | |- context [if ?b then _ else _] => destruct b eqn:?
    | |- context [match extraction_path ?c with _ => _ end] =>
        destruct (extraction_path c) eqn:?
    | |- context [Util.extract_archive_file ?e ?a ?b ?w] =>
        destruct (Util.extract_archive_file e a b w) as [[[]|?] ?]
    end);
  try (reflexivity || discriminate).

Lemma attempt_run c ex fd fe w :
  with_object c
    (r ← try_rollback (Minato.try_body env ex fd fe) Minato.rollback;
     match r with
     | Some p => mret p
     | None => gets (fun f => local_path (cached_file f))
     end) w
  = Steps.run env c ex fd fe w.
Proof.
  unfold Steps.run, Steps.fetch, Steps.unpack, Steps.needs_download,
    Steps.needs_extraction, Steps.settle, Steps.cleanup, Steps.persist,
    Steps.chosen, Steps.clear_destination.
  unfold with_object, try_rollback, Minato.try_body, Minato.rollback, inW,
    Minato.download, Util.path_exists, Util.is_archive_file, Cache.is_expired,
    Cache.update, assign_extraction_path, when, gets, modify, mbind, M_bind,
    mret, M_ret.
  cbn.
  destruct (negb (Disk.path_exists (local_path c) (disk w))
            || Cache.expired env c (now w) || fd) eqn:Hneed; cbn.
  - unfold Util.download.
    destruct (transport env w (url c)) as [a|e [a|]]; cbn;
      try (destruct (rollback_catches e); cbn;
           destruct (extraction_path c); reflexivity).
    all: crunch.
  - crunch.
Qed.

Lemma pipeline_run u ex fd fe w :
  Minato.pipeline env u ex fd fe w
  = let (r, w') := Steps.run env (Steps.record_for env u w) ex fd fe
                     (Steps.entered env u w) in
    (r, set_locked false w').
Proof.
  unfold Minato.pipeline, Cache.with_cache.
  unfold mbind at 1 2. unfold M_bind, Cache.contains, gets.
  unfold Steps.record_for, Steps.entered.
  destruct (rows w !! u) as [r|] eqn:Hr.
  - rewrite bool_decide_eq_true_2 by (cbn; eauto).
    unfold Cache.by_url. cbn. rewrite Hr. by rewrite attempt_run.
  - rewrite bool_decide_eq_false_2 by (cbn; rewrite Hr; by intros [? ?]).
    unfold Cache.add. cbn. by rewrite attempt_run.
Qed.
End PipelineRun.

(** ** Counting events *)

Section TraceFacts.

Lemma downloads_log e w :
  downloads (log e w) = (downloads w + (if is_download e then 1 else 0))%nat.
Proof.
  unfold downloads. cbn. rewrite List.filter_app, length_app. cbn.
  by destruct (is_download e).
Qed.

Lemma extractions_log e w :
  extractions (log e w) = (extractions w + (if is_extract e then 1 else 0))%nat.
Proof.
  unfold extractions. cbn. rewrite List.filter_app, length_app. cbn.
  by destruct (is_extract e).
Qed.

Lemma updates_log e w :
  updates (log e w) = (updates w + (if is_update e then 1 else 0))%nat.
Proof.
  unfold updates. cbn. rewrite List.filter_app, length_app. cbn.
  by destruct (is_update e).
Qed.

Lemma downloads_set_disk d w : downloads (set_disk d w) = downloads w.
Proof. reflexivity. Qed.
Lemma downloads_set_rows r w : downloads (set_rows r w) = downloads w.
Proof. reflexivity. Qed.
Lemma downloads_set_locked b w : downloads (set_locked b w) = downloads w.
Proof. reflexivity. Qed.
Lemma extractions_set_disk d w : extractions (set_disk d w) = extractions w.
Proof. reflexivity. Qed.
Lemma extractions_set_rows r w : extractions (set_rows r w) = extractions w.
Proof. reflexivity. Qed.
Lemma extractions_set_locked b w : extractions (set_locked b w) = extractions w.
Proof. reflexivity. Qed.
Lemma updates_set_disk d w : updates (set_disk d w) = updates w.
Proof. reflexivity. Qed.
Lemma updates_set_rows r w : updates (set_rows r w) = updates w.
Proof. reflexivity. Qed.
Lemma updates_set_locked b w : updates (set_locked b w) = updates w.
Proof. reflexivity. Qed.

(** Two events next to each other in a list. *)
Lemma adjacent_here {A} (x y : A) post :
  ∃ pre post', (x :: y :: post) = (pre ++ x :: y :: post')%list.
Proof. by exists [], post. Qed.

Lemma adjacent_cons {A} (a x y : A) l :
  (∃ pre post, l = (pre ++ x :: y :: post)%list) →
  ∃ pre post, (a :: l) = (pre ++ x :: y :: post)%list.
Proof. intros (pre & post & ->). by exists (a :: pre), post. Qed.

Lemma adjacent_app {A} (x y : A) l0 l :
  (∃ pre post, l = (pre ++ x :: y :: post)%list) →
  ∃ pre post, (l0 ++ l)%list = (pre ++ x :: y :: post)%list.
Proof.
  intros (pre & post & ->). exists (l0 ++ pre)%list, post.
  by rewrite <- app_assoc.
Qed.

Lemma disk_set_locked b w : disk (set_locked b w) = disk w.
Proof. reflexivity. Qed.
Lemma rows_set_locked b w : rows (set_locked b w) = rows w.
Proof. reflexivity. Qed.

Lemma disk_log e w : disk (log e w) = disk w.
Proof. reflexivity. Qed.
Lemma disk_set_rows r w : disk (set_rows r w) = disk w.
Proof. reflexivity. Qed.
Lemma disk_set_disk d w : disk (set_disk d w) = d.
Proof. reflexivity. Qed.
Lemma rows_log e w : rows (log e w) = rows w.
Proof. reflexivity. Qed.
Lemma rows_set_disk d w : rows (set_disk d w) = rows w.
Proof. reflexivity. Qed.
Lemma rows_set_rows r w : rows (set_rows r w) = r.
Proof. reflexivity. Qed.
Lemma now_log e w : now (log e w) = now w.
Proof. reflexivity. Qed.
Lemma now_set_disk d w : now (set_disk d w) = now w.
Proof. reflexivity. Qed.
Lemma now_set_rows r w : now (set_rows r w) = now w.
Proof. reflexivity. Qed.
Lemma now_set_locked b w : now (set_locked b w) = now w.
Proof. reflexivity. Qed.

End TraceFacts.

Create Rewrite HintDb world.

#[local] Hint Rewrite downloads_log extractions_log updates_log
  downloads_set_disk downloads_set_rows downloads_set_locked
  extractions_set_disk extractions_set_rows extractions_set_locked
  updates_set_disk updates_set_rows updates_set_locked
  disk_set_locked disk_log disk_set_rows disk_set_disk
  rows_set_locked rows_log rows_set_disk rows_set_rows
  now_log now_set_disk now_set_rows now_set_locked : world.

(** ** Entering the critical section *)

Section EnteredFacts.
Variable env : Env.

Lemma entered_disk u w : disk (Steps.entered env u w) = disk w.
Proof. unfold Steps.entered. by destruct (rows w !! u). Qed.

Lemma entered_now u w : now (Steps.entered env u w) = now w.
Proof. unfold Steps.entered. by destruct (rows w !! u). Qed.

Lemma entered_trace u w :
  trace (Steps.entered env u w)
  = (trace w ++ (if bool_decide (is_Some (rows w !! u)) then [] else [EvAdd u]))%list.
Proof.
  unfold Steps.entered. destruct (rows w !! u) eqn:E; cbn.
  - by rewrite app_nil_r.
  - done.
Qed.

Lemma entered_row u w :
  rows (Steps.entered env u w) !! u = Some (to_row (Steps.record_for env u w)).
Proof.
  unfold Steps.entered, Steps.record_for. destruct (rows w !! u) as [[]|] eqn:E; cbn.
  - done.
  - by rewrite lookup_insert_eq.
Qed.

Lemma entered_downloads u w : downloads (Steps.entered env u w) = downloads w.
Proof.
  unfold downloads. rewrite entered_trace. case_bool_decide.
  - by rewrite app_nil_r.
  - by rewrite List.filter_app, length_app, Nat.add_0_r.
Qed.

Lemma entered_extractions u w : extractions (Steps.entered env u w) = extractions w.
Proof.
  unfold extractions. rewrite entered_trace. case_bool_decide.
  - by rewrite app_nil_r.
  - by rewrite List.filter_app, length_app, Nat.add_0_r.
Qed.


Lemma entered_needs_download u c fd w :
  Steps.needs_download env c fd (Steps.entered env u w)
  = Steps.needs_download env c fd w.
Proof. unfold Steps.needs_download. by rewrite entered_disk, entered_now. Qed.

Lemma record_for_url u w : url (Steps.record_for env u w) = u.
Proof. unfold Steps.record_for. by destruct (rows w !! u). Qed.

End EnteredFacts.

(** ** Clearing the destination of an extraction *)

Section ClearFacts.

Lemma clear_rows p w : rows (Steps.clear_destination p w) = rows w.
Proof. unfold Steps.clear_destination. by destruct (Disk.path_exists _ _). Qed.

Lemma clear_now p w : now (Steps.clear_destination p w) = now w.
Proof. unfold Steps.clear_destination. by destruct (Disk.path_exists _ _). Qed.

Lemma clear_gone p w :
  Disk.path_exists p (disk (Steps.clear_destination p w)) = false.
Proof.
  unfold Steps.clear_destination. destruct (Disk.path_exists p (disk w)) eqn:E; [|done].
  cbn. apply remove_gone, within_refl.
Qed.

Lemma clear_outside p w q :
  Disk.within p q = false → disk (Steps.clear_destination p w) !! q = disk w !! q.
Proof.
  intros H. unfold Steps.clear_destination.
  destruct (Disk.path_exists p (disk w)); [|done]. cbn. by rewrite lookup_remove, H.
Qed.

Lemma clear_keeps_outside p w q :
  Disk.within p q = false →
  Disk.path_exists q (disk (Steps.clear_destination p w)) = Disk.path_exists q (disk w).
Proof. intros H. unfold Disk.path_exists. by rewrite clear_outside. Qed.

Lemma clear_trace p w :
  ∃ evs, trace (Steps.clear_destination p w) = (trace w ++ evs)%list
         ∧ Forall (fun e => e = EvRemove p) evs.
Proof.
  unfold Steps.clear_destination. destruct (Disk.path_exists _ _); cbn.
  - exists [EvRemove p]. split; [done|]. by constructor.
  - exists []. by rewrite app_nil_r.
Qed.

Lemma clear_trace_existing p w :
  Disk.path_exists p (disk w) = true →
  trace (Steps.clear_destination p w) = (trace w ++ [EvRemove p])%list.
Proof. intros H. unfold Steps.clear_destination. by rewrite H. Qed.

Lemma clear_downloads p w : downloads (Steps.clear_destination p w) = downloads w.
Proof.
  unfold Steps.clear_destination. destruct (Disk.path_exists _ _); [|done].
  unfold downloads. cbn. rewrite List.filter_app, length_app. cbn. lia.
Qed.

Lemma clear_extractions p w : extractions (Steps.clear_destination p w) = extractions w.
Proof.
  unfold Steps.clear_destination. destruct (Disk.path_exists _ _); [|done].
  unfold extractions. cbn. rewrite List.filter_app, length_app. cbn. lia.
Qed.

Lemma clear_updates p w : updates (Steps.clear_destination p w) = updates w.
Proof.
  unfold Steps.clear_destination. destruct (Disk.path_exists _ _); [|done].
  unfold updates. cbn. rewrite List.filter_app, length_app. cbn. lia.
Qed.

End ClearFacts.

#[local] Hint Rewrite clear_rows clear_now clear_downloads clear_extractions
  clear_updates : world.

(** ** The rollback *)

Section CleanupFacts.

Lemma cleanup_rows c w : rows (Steps.cleanup c w) = rows w.
Proof. unfold Steps.cleanup. by destruct (extraction_path c). Qed.

Lemma cleanup_now c w : now (Steps.cleanup c w) = now w.
Proof. unfold Steps.cleanup. by destruct (extraction_path c). Qed.

Lemma cleanup_downloads c w : downloads (Steps.cleanup c w) = downloads w.
Proof.
  unfold Steps.cleanup, Util.remove_file_or_directory, modify.
  destruct (extraction_path c); cbn [snd]; autorewrite with world; cbn; lia.
Qed.

Lemma cleanup_extractions c w : extractions (Steps.cleanup c w) = extractions w.
Proof.
  unfold Steps.cleanup, Util.remove_file_or_directory, modify.
  destruct (extraction_path c); cbn [snd]; autorewrite with world; cbn; lia.
Qed.

Lemma cleanup_updates c w : updates (Steps.cleanup c w) = updates w.
Proof.
  unfold Steps.cleanup, Util.remove_file_or_directory, modify.
  destruct (extraction_path c); cbn [snd]; autorewrite with world; cbn; lia.
Qed.

(** Nothing is left at the artifact's path, nor below it. *)
Lemma cleanup_artifact c w q :
  Disk.within (local_path c) q = true → disk (Steps.cleanup c w) !! q = None.
Proof.
  intros H. unfold Steps.cleanup. destruct (extraction_path c); cbn.
  - rewrite !lookup_remove, H. by case_match.
  - by rewrite lookup_remove, H.
Qed.

(** Nothing is left at the extraction path of the record, nor below it. *)
Lemma cleanup_extraction c w p q :
  extraction_path c = Some p → Disk.within p q = true →
  disk (Steps.cleanup c w) !! q = None.
Proof.
  intros Hp H. unfold Steps.cleanup. rewrite Hp. cbn.
  by rewrite lookup_remove, H.
Qed.

Lemma cleanup_trace c w :
  trace (Steps.cleanup c w)
  = (trace w ++ EvRemove (local_path c)
       :: match extraction_path c with
          | Some p => [EvRemove p]
          | None => []
          end)%list.
Proof.
  unfold Steps.cleanup. destruct (extraction_path c); cbn; [|done].
  by rewrite <- app_assoc.
Qed.

End CleanupFacts.

#[local] Hint Rewrite cleanup_rows cleanup_now cleanup_downloads
  cleanup_extractions cleanup_updates : world.

(** ** The general pipeline of [cached_path] *)

Section Pipeline.
Variable env : Env.

(** Case analysis of one run, [H : Steps.run env c ex fd fe w0 = (r, w')]:
    the outcome of the transfer, then of the extraction. *)
Local Ltac run_cases H :=
  unfold Steps.run, Steps.fetch, Steps.unpack, Steps.settle, Steps.persist in H;
  match type of H with
  | context [Steps.needs_download env ?c ?fd ?w0] =>
      let Hneed := fresh "Hneed" in
      let Htr := fresh "Htr" in
      destruct (Steps.needs_download env c fd w0) eqn:Hneed;
      [ unfold Util.download in H;
        destruct (transport env w0 (url c)) as [?a|?e [?a|]] eqn:Htr | ]
  end;
  try match type of H with
  | context [Steps.needs_extraction ?c ?ex ?fe ?d ?w1] =>
      let Hext := fresh "Hext" in
      let Hun := fresh "Hun" in
      destruct (Steps.needs_extraction c ex fe d w1) eqn:Hext;
      [ unfold Util.extract_archive_file in H;
        match type of H with
        | context [unpacker env ?w2 ?src] =>
            destruct (unpacker env w2 src) as [?es|?e [?es|]] eqn:Hun
        end | ]
  end;
  cbn [orb] in H;
  try match type of H with
  | context [rollback_catches ?e] =>
      let Hcatch := fresh "Hcatch" in
      destruct (rollback_catches e) eqn:Hcatch
  end;
  injection H as <- <-.

(** The events of a leaf of [run_cases], as a list appended to the
    trace the run started from. *)
Local Ltac trace_since Htrace :=
  unfold Steps.since; cbn [fst snd];
  repeat (cbn [trace log set_locked set_rows set_disk set_next_id];
    match goal with
    | |- context [trace (Steps.cleanup ?c ?w1)] => rewrite (cleanup_trace c w1)
    | |- context [trace (Steps.clear_destination ?p ?w1)] =>
        first
          [ rewrite (clear_trace_existing p w1) by (cbn; eassumption)
          | let evs := fresh "cleared" in
            let Hcl := fresh "Hcl" in
            let Hall := fresh "Hall" in
            destruct (clear_trace p w1) as (evs & Hcl & Hall);
            rewrite Hcl; clear Hcl ]
    end);
  cbn [trace log set_locked set_rows set_disk set_next_id
       extraction_path local_path set_extraction_path];
  rewrite Htrace, <- ?app_assoc, drop_app_length.

(** C2: a download is performed if and only if the artifact is missing on
    disk, or the record is expired, or [force_download] is set; and when
    a run that downloads returns normally, the successful download is
    followed by the [update] of the record, which stamps its row and is
    the last thing the run does. *)
Theorem download_iff_missing_expired_or_forced u ex fd fe w :
  let c := Steps.record_for env u w in
  let need := Steps.needs_download env c fd w in
  let out := Minato.pipeline env u ex fd fe w in
  downloads out.2 = (downloads w + (if need then 1 else 0))%nat
  ∧ (need = true → ∀ p, out.1 = Ok p →
       EvDownload u (local_path c) None ∈ Steps.since w out.2
       ∧ last (Steps.since w out.2) = Some (EvUpdate u)
       ∧ ∃ row, rows out.2 !! u = Some row ∧ row_updated_at row = now w).
Proof.
  intros c need out. subst out need.
  rewrite pipeline_run. fold c.
  rewrite <- (entered_needs_download env u c fd w).
  rewrite <- (entered_downloads env u w).
  pose proof (entered_trace env u w) as Htrace.
  pose proof (entered_now env u w) as Hnow.
  pose proof (record_for_url env u w) as Hurl. fold c in Hurl.
  set (w0 := Steps.entered env u w) in *.
  destruct (Steps.run env c ex fd fe w0) as [r w'] eqn:Hrun.
  run_cases Hrun; cbn [fst snd Cache.update modify].
  all: split; [ autorewrite with world; cbn; lia | ].
  all: try (intros [=]; fail).
  all: try (intros _ p [=]; fail).
  all: intros _ p _; rewrite Hurl; split; [|split].
  all: try (trace_since Htrace; rewrite !elem_of_app, !elem_of_cons; naive_solver).
  all: try (trace_since Htrace; rewrite ?app_assoc; apply last_snoc).
  all: cbn; rewrite lookup_insert_eq; eexists; split; [done|];
    cbn; autorewrite with world; cbn; done.
Qed.

(** C3, as the code has it: once the artifact is in place, extraction is
    performed if and only if the artifact is a recognised archive and
    ([extract] was requested and the record holds no extraction path, or
    a download has just happened and the record holds one, or
    [force_extract] is set); an extraction writes into
    [local_path + "-extracted"], which is free when it starts, an older
    directory there having been removed first; and with [extract]
    requested on an artifact that is no archive the run extracts nothing
    and raises nothing, returning [local_path] when the record holds no
    extraction path.  [archive] is what [is_archive_file] answers when the
    test is made: the signature of the file just downloaded, or of the
    file found on disk. *)
Theorem extraction_iff_archive_and_wanted u ex fd fe w archive :
  let c := Steps.record_for env u w in
  let lp := local_path c in
  let dst := Minato.extracted_name lp in
  let downloaded := Steps.needs_download env c fd w in
  let recorded := bool_decide (is_Some (extraction_path c)) in
  let wanted := (ex && negb recorded) || (downloaded && recorded) || fe in
  let out := Minato.pipeline env u ex fd fe w in
  (if downloaded
   then transport env (Steps.entered env u w) u = Fetched archive
   else Disk.is_archive_file lp (disk w) = archive) →
  extractions out.2 = (extractions w + (if wanted && archive then 1 else 0))%nat
  ∧ (∀ e, e ∈ Steps.since w out.2 → is_extract e = true →
       ∃ failure, e = EvExtract lp dst true failure)
  ∧ (wanted && archive = true → Disk.path_exists dst (disk w) = true →
       ∃ pre post failure,
         Steps.since w out.2
         = (pre ++ EvRemove dst :: EvExtract lp dst true failure :: post)%list)
  ∧ (ex = true → archive = false →
       extractions out.2 = extractions w
       ∧ out.1 = Ok (Steps.chosen c ex fe)
       ∧ (extraction_path c = None → out.1 = Ok lp)).
Proof.
  intros c lp dst downloaded recorded wanted out.
  subst out downloaded wanted recorded dst lp.
  rewrite pipeline_run. fold c.
  rewrite <- (entered_needs_download env u c fd w).
  rewrite <- (entered_extractions env u w).
  rewrite <- (entered_disk env u w).
  pose proof (entered_trace env u w) as Htrace.
  pose proof (record_for_url env u w) as Hurl. fold c in Hurl.
  set (w0 := Steps.entered env u w) in *.
  destruct (Steps.run env c ex fd fe w0) as [r w'] eqn:Hrun.
  intros Harch.
  run_cases Hrun; cbn [fst snd Cache.update modify];
    rewrite ?Hurl in *; try congruence.
  all: try (assert (a = archive) as -> by congruence).
  all: unfold Steps.needs_extraction in Hext; cbn [disk log set_disk] in Hext;
    rewrite ?written_file_is_archive, ?Harch in Hext; rewrite Hext.
  all: split; [ autorewrite with world; cbn; lia | ].
  all: split; [ | split ].
  (* every extraction event goes to a free [dst] *)
  all: try (
    trace_since Htrace; rewrite ?clear_gone; cbn [negb];
    intros ev Hev Hex; destruct (bool_decide (is_Some (rows w !! u)));
    rewrite ?elem_of_app, ?elem_of_cons, ?elem_of_nil in Hev;
    destruct_or! Hev; try done;
    try (rewrite Forall_forall in Hall; apply Hall in Hev);
    subst ev; cbn in Hex; try done; eauto; fail).
  (* an older directory at [dst] is removed just before *)
  all: try (intros [=]; fail).
  all: try (
    intros _ Hdst;
    assert (Hdst1 := write_file_keeps (local_path c) archive _ _ Hdst);
    trace_since Htrace; rewrite ?clear_gone;
    destruct (bool_decide (is_Some (rows w !! u))); cbn [app negb];
    first [ by eexists [], _, _ | by eexists [_], _, _
          | by eexists [_; _], _, _ ]; fail).
  (* [extract] on an artifact that is no archive *)
  all: intros -> ->; rewrite andb_false_r in Hext; try discriminate.
  all: split; [ autorewrite with world; cbn; lia | ].
  all: split; [ done | ].
  all: intros Hnone; unfold Steps.chosen; by rewrite Hnone.
Qed.

(** C1: when a transfer or an extraction inside the pipeline fails with
    an [Exception], a [SystemExit] or a [KeyboardInterrupt], the run ends
    with that very exception; nothing is left at [local_path] nor below
    it; nothing is left at the destination of a failed extraction, nor at
    the extraction path recorded before a failed transfer; the removals
    come after the failure; and the lock is released. *)
Theorem rollback_then_reraise u ex fd fe w ev e :
  let c := Steps.record_for env u w in
  let out := Minato.pipeline env u ex fd fe w in
  ev ∈ Steps.since w out.2 →
  failure_of ev = Some e →
  rollback_catches e = true →
  out.1 = Raise e
  ∧ (∀ q, Disk.within (local_path c) q = true → disk out.2 !! q = None)
  ∧ (∀ src dst fresh q, ev = EvExtract src dst fresh (Some e) →
       Disk.within dst q = true → disk out.2 !! q = None)
  ∧ (∀ src dst p q, ev = EvDownload src dst (Some e) →
       extraction_path c = Some p →
       Disk.within p q = true → disk out.2 !! q = None)
  ∧ (∃ pre post, Steps.since w out.2
                 = (pre ++ ev :: EvRemove (local_path c) :: post)%list)
  ∧ locked out.2 = false.
Proof.
  intros c out. subst out.
  rewrite pipeline_run. fold c.
  pose proof (entered_trace env u w) as Htrace.
  pose proof (record_for_url env u w) as Hurl. fold c in Hurl.
  set (w0 := Steps.entered env u w) in *.
  destruct (Steps.run env c ex fd fe w0) as [r w'] eqn:Hrun.
  intros Hev Hfail Hcatch.
  run_cases Hrun; cbn [fst snd Cache.update modify] in *; rewrite ?Hurl in *.
  all: destruct (extraction_path c) as [p0|] eqn:Hep.
  all: pose proof I as Hsince; revert Hsince Hev; trace_since Htrace;
    intros _ Hev.
  all: destruct (bool_decide (is_Some (rows w !! u)));
    rewrite ?Hep, ?elem_of_app, ?elem_of_cons, ?elem_of_nil in Hev;
    destruct_or! Hev; try done;
    try (rewrite Forall_forall in Hall; apply Hall in Hev);
    subst ev; cbn in Hfail; try done; injection Hfail as <-; try congruence.
  all: split; [done|].
  all: rewrite disk_set_locked.
  all: split; [ intros q Hq; by apply cleanup_artifact | ].
  all: split; [ intros src dst fresh q [= <- <- <-] Hq;
                by eapply cleanup_extraction | ].
  all: split; [ intros src dst p q [= <- <-] Hp Hq;
                (eapply cleanup_extraction; [|done]; congruence) | ].
  all: split; [ | done ].
  all: rewrite ?Hep; cbn [app];
    repeat first [ apply adjacent_here | apply adjacent_cons | apply adjacent_app ].
Qed.

(** What the first test of the [try] body says when it is false. *)
Lemma no_download_artifact_present c fd w :
  Steps.needs_download env c fd w = false →
  Disk.path_exists (local_path c) (disk w) = true
  ∧ Cache.expired env c (now w) = false ∧ fd = false.
Proof.
  unfold Steps.needs_download.
  intros [[H1%negb_false_iff H2]%orb_false_iff H3]%orb_false_iff. done.
Qed.


(** *** Facts shared by the properties of repeated resolutions *)

Lemma pipeline_download_count u ex fd fe w :
  downloads (Minato.pipeline env u ex fd fe w).2
  = (downloads w
     + (if Steps.needs_download env (Steps.record_for env u w) fd w then 1 else 0))%nat.
Proof.
  rewrite pipeline_run.
  rewrite <- (entered_needs_download env u _ fd w).
  rewrite <- (entered_downloads env u w).
  set (c := Steps.record_for env u w).
  set (w0 := Steps.entered env u w) in *.
  destruct (Steps.run env c ex fd fe w0) as [r w'] eqn:Hrun.
  run_cases Hrun; cbn [fst snd Cache.update modify];
    autorewrite with world; cbn; lia.
Qed.

Lemma unlock_relock w : locked w = false → set_locked false (set_locked true w) = w.
Proof. destruct w. cbn. by intros ->. Qed.

(** A run that finds the artifact in place and nothing to extract changes
    nothing. *)
Lemma pipeline_idle u ex w row :
  rows w !! u = Some row →
  locked w = false →
  Steps.needs_download env (to_record u row) false w = false →
  Steps.needs_extraction (to_record u row) ex false false w = false →
  Minato.pipeline env u ex false false w
  = (Ok (Steps.chosen (to_record u row) ex false), w).
Proof.
  intros Hrow Hlock Hdl Hext. rewrite pipeline_run.
  unfold Steps.record_for, Steps.entered. rewrite Hrow.
  unfold Steps.run, Steps.fetch, Steps.unpack, Steps.persist.
  change (Steps.needs_download env (to_record u row) false (set_locked true w))
    with (Steps.needs_download env (to_record u row) false w).
  rewrite Hdl.
  change (Steps.needs_extraction (to_record u row) ex false false (set_locked true w))
    with (Steps.needs_extraction (to_record u row) ex false false w).
  rewrite Hext. cbn [orb]. by rewrite unlock_relock.
Qed.

(** The state a successful run leaves. *)
Lemma pipeline_ok_facts u ex fd fe w p w1 :
  Minato.pipeline env u ex fd fe w = (Ok p, w1) →
  ∃ row, rows w1 !! u = Some row
    ∧ locked w1 = false
    ∧ p = Steps.chosen (to_record u row) ex fe
    ∧ Disk.path_exists (row_local_path row) (disk w1) = true
    ∧ (∀ q, row_extraction_path row = Some q →
            (∀ q', extraction_path (Steps.record_for env u w) = Some q' →
                   Disk.path_exists q' (disk w) = true) →
            Disk.path_exists q (disk w1) = true)
    ∧ (ex = true → row_extraction_path row = None →
       Disk.is_archive_file (row_local_path row) (disk w1) = false).
Proof.
  rewrite pipeline_run.
  rewrite <- (entered_disk env u w).
  pose proof (entered_row env u w) as Hrow.
  pose proof (record_for_url env u w) as Hurl.
  set (c := Steps.record_for env u w) in *.
  set (w0 := Steps.entered env u w) in *.
  destruct (Steps.run env c ex fd fe w0) as [r w'] eqn:Hrun.
  cbn beta iota. intros Heq.
  run_cases Hrun; try discriminate; injection Heq as <- <-; rewrite ?Hurl.
  all: try (apply no_download_artifact_present in Hneed as (Hlp & _ & _)).
  all: unfold Steps.needs_extraction in Hext; cbn [Cache.update modify snd];
    autorewrite with world in Hext |- *; rewrite ?lookup_insert_eq, ?Hrow;
    eexists; (split; [reflexivity|]);
    cbn [row_local_path row_extraction_path to_row set_updated_at
         set_extraction_path local_path extraction_path].
  all: split; [done|]. all: split; [done|].
  all: split;
    [ rewrite ?write_tree_keeps_outside by apply artifact_outside_extraction;
      rewrite ?clear_keeps_outside by apply artifact_outside_extraction;
      autorewrite with world;
      first [ apply written_file_exists | exact Hlp ] | ].
  all: split;
    [ intros q Hq Hrec;
      first [ injection Hq as <-; apply write_tree_exists
            | apply Hrec in Hq; first [ by apply write_file_keeps | exact Hq ] ] | ].
  all: intros -> Hnone; try discriminate.
  all: rewrite Hnone in Hext; cbn in Hext; exact Hext.
Qed.

(** The state a run that was rolled back leaves. *)
Lemma pipeline_raise_facts u ex fd fe w e w1 :
  Minato.pipeline env u ex fd fe w = (Raise e, w1) →
  rollback_catches e = true →
  rows w1 !! u = Some (to_row (Steps.record_for env u w))
  ∧ now w1 = now w
  ∧ Disk.path_exists (local_path (Steps.record_for env u w)) (disk w1) = false.
Proof.
  rewrite pipeline_run.
  pose proof (entered_row env u w) as Hrow.
  pose proof (entered_now env u w) as Hnow.
  set (c := Steps.record_for env u w) in *.
  set (w0 := Steps.entered env u w) in *.
  destruct (Steps.run env c ex fd fe w0) as [r w'] eqn:Hrun.
  cbn beta iota. intros Heq Hcatch.
  run_cases Hrun; try discriminate; injection Heq as <- <-; try congruence.
  all: autorewrite with world; split; [done|]; split; [done|].
  all: unfold Disk.path_exists; rewrite cleanup_artifact by apply within_refl;
    apply bool_decide_eq_false; by intros [? ?].
Qed.

(** *** Further properties of one run *)

Lemma entered_other u v w :
  v ≠ u → rows (Steps.entered env u w) !! v = rows w !! v.
Proof.
  intros Hne. unfold Steps.entered. destruct (rows w !! u); [done|].
  cbn. by rewrite lookup_insert_ne.
Qed.

(** X1: resolving one reference leaves the records of every other
    reference as they were. *)
Theorem other_records_untouched u v ex fd fe w :
  v ≠ u →
  rows (Minato.pipeline env u ex fd fe w).2 !! v = rows w !! v.
Proof.
  intros Hne. rewrite pipeline_run.
  rewrite <- (entered_other u v w Hne).
  pose proof (record_for_url env u w) as Hurl.
  set (c := Steps.record_for env u w) in *.
  set (w0 := Steps.entered env u w) in *.
  destruct (Steps.run env c ex fd fe w0) as [r w'] eqn:Hrun.
  run_cases Hrun; cbn [fst snd Cache.update modify]; rewrite ?Hurl;
    autorewrite with world; rewrite ?lookup_insert_ne by done; done.
Qed.

(** X2: when a transfer or an extraction fails with an exception that is
    neither an [Exception] nor [SystemExit] nor [KeyboardInterrupt], the
    [except] clause does not apply: the run ends with that exception, the
    failure is the last thing that happened, so nothing is removed, and the
    lock is released. *)
Theorem uncaught_failure_skips_rollback u ex fd fe w ev e :
  let out := Minato.pipeline env u ex fd fe w in
  ev ∈ Steps.since w out.2 →
  failure_of ev = Some e →
  rollback_catches e = false →
  out.1 = Raise e
  ∧ last (Steps.since w out.2) = Some ev
  ∧ locked out.2 = false.
Proof.
  intros out. subst out.
  rewrite pipeline_run.
  pose proof (entered_trace env u w) as Htrace.
  pose proof (record_for_url env u w) as Hurl.
  set (c := Steps.record_for env u w) in *.
  set (w0 := Steps.entered env u w) in *.
  destruct (Steps.run env c ex fd fe w0) as [r w'] eqn:Hrun.
  intros Hev Hfail Hcatch.
  run_cases Hrun; cbn [fst snd Cache.update modify] in *; rewrite ?Hurl in *.
  all: destruct (extraction_path c) as [p0|] eqn:Hep.
  all: pose proof I as Hsince; revert Hsince Hev; trace_since Htrace;
    intros _ Hev.
  all: destruct (bool_decide (is_Some (rows w !! u)));
    rewrite ?Hep, ?elem_of_app, ?elem_of_cons, ?elem_of_nil in Hev;
    destruct_or! Hev; try done;
    try (rewrite Forall_forall in Hall; apply Hall in Hev);
    subst ev; cbn in Hfail; try done; injection Hfail as <-; try congruence.
  all: split; [done|]. all: split; [|done].
  all: rewrite ?app_assoc; try apply last_snoc.
  all: rewrite <- ?app_assoc; cbn [app];
    repeat (change (?x :: ?l) with ([x] ++ l)%list; rewrite app_assoc);
    apply last_snoc.
Qed.

Lemma written_tree_is_dir p es d : Disk.is_dir p (Disk.write_tree p es d) = true.
Proof.
  unfold Disk.is_dir. rewrite lookup_write_tree_root. by apply bool_decide_eq_true.
Qed.

(** X3: when a run that returns normally has extracted, the directory
    [local_path + "-extracted"] is a directory on disk and is the
    extraction path of the persisted record; the run returns it when
    [extract] or [force_extract] was set, and [local_path] when the
    extraction was only the refresh that follows a download. *)
Theorem extracted_path_is_directory u ex fd fe w p ev :
  let c := Steps.record_for env u w in
  let dst := Minato.extracted_name (local_path c) in
  let out := Minato.pipeline env u ex fd fe w in
  out.1 = Ok p →
  ev ∈ Steps.since w out.2 →
  is_extract ev = true →
  Disk.is_dir dst (disk out.2) = true
  ∧ (∃ row, rows out.2 !! u = Some row ∧ row_extraction_path row = Some dst)
  ∧ p = (if ex || fe then dst else local_path c).
Proof.
  intros c dst out. subst out dst.
  rewrite pipeline_run. fold c.
  pose proof (entered_trace env u w) as Htrace.
  pose proof (record_for_url env u w) as Hurl. fold c in Hurl.
  set (w0 := Steps.entered env u w) in *.
  destruct (Steps.run env c ex fd fe w0) as [r w'] eqn:Hrun.
  intros Hok Hev Hex.
  run_cases Hrun; cbn [fst snd Cache.update modify] in *; rewrite ?Hurl in *;
    try discriminate.
  all: pose proof I as Hsince; revert Hsince Hev; trace_since Htrace;
    intros _ Hev.
  all: destruct (bool_decide (is_Some (rows w !! u)));
    rewrite ?elem_of_app, ?elem_of_cons, ?elem_of_nil in Hev;
    destruct_or! Hev; try done;
    try (rewrite Forall_forall in Hall; apply Hall in Hev);
    subst ev; cbn in Hex; try done.
  all: injection Hok as <-.
  all: autorewrite with world; split; [apply written_tree_is_dir|].
  all: split; [ rewrite lookup_insert_eq; eexists; split; reflexivity | ].
  all: unfold Steps.chosen; cbn [extraction_path local_path set_extraction_path];
    by destruct (ex || fe).
Qed.

(** A run that downloads and has nothing to extract. *)
Lemma pipeline_download_only u ex fd fe w a :
  let c := Steps.record_for env u w in
  Steps.needs_download env c fd w = true →
  transport env (Steps.entered env u w) u = Fetched a →
  Steps.needs_extraction c ex fe true
    (set_disk (Disk.write_file (local_path c) a (disk w)) w) = false →
  ∃ w1, Minato.pipeline env u ex fd fe w = (Ok (Steps.chosen c ex fe), w1)
    ∧ disk w1 = Disk.write_file (local_path c) a (disk w)
    ∧ rows w1 !! u = Some (to_row (set_updated_at (now w) c))
    ∧ downloads w1 = (downloads w + 1)%nat
    ∧ locked w1 = false.
Proof.
  intros c Hneed Htr Hext. rewrite pipeline_run. fold c.
  rewrite <- (entered_needs_download env u c fd w) in Hneed.
  rewrite <- (entered_downloads env u w).
  rewrite <- (entered_disk env u w) in Hext |- *.
  rewrite <- (entered_now env u w).
  pose proof (record_for_url env u w) as Hurl. fold c in Hurl.
  set (w0 := Steps.entered env u w) in *.
  unfold Steps.run, Steps.fetch, Steps.unpack, Steps.persist, Util.download.
  rewrite Hneed, Hurl, Htr.
  unfold Steps.needs_extraction in Hext |- *. cbn [disk set_disk log] in Hext |- *.
  rewrite Hext. cbn [orb Cache.update modify snd]. rewrite Hurl.
  eexists. split; [reflexivity|].
  autorewrite with world. rewrite lookup_insert_eq. cbn. repeat split; lia.
Qed.
End Pipeline.

(** ** Nested references and the recursion of [cached_path] *)

Section Nested.
Variable env : Env.

(** Fuel above the length of the reference is never used up. *)
Lemma cached_path_rec_fuel n m u ex fd fe :
  (String.length u < n)%nat → (String.length u < m)%nat →
  Minato.cached_path_rec env n u ex fd fe = Minato.cached_path_rec env m u ex fd fe.
Proof.
  revert m u ex. induction n as [|n IH]; intros [|m] u ex Hn Hm; try lia.
  cbn [Minato.cached_path_rec].
  destruct (PyStr.rsplit1 "!" u) as [[outer inner]|] eqn:Hsplit; [|done].
  apply rsplit1_shorter in Hsplit.
  rewrite (IH m outer true) by lia. done.
Qed.

(** C6: a reference that contains the marker is split at the last
    occurrence of the marker; the outer reference is resolved by
    [cached_path] itself with [extract] set, which for an outer reference
    without a marker is the run of the pipeline (after [extract_path], when
    it is local); when the path that comes back is no directory the call
    raises [ValueError]; otherwise the inner path, as [extract_path] gives
    it, is joined to that directory and the joined path is returned, in the
    world the outer call left.  When [extract_path] normalises the inner
    path as the spec has it, the path returned is the directory with the
    components of the inner path added, also when the inner path begins
    with separators, and an inner path that climbs out of the directory is
    rejected. *)
Theorem nested_reference_resolution u ex fd fe w :
  PyStr.contains "!" u = true →
  ∃ outer inner,
    PyStr.rsplit1 "!" u = Some (outer, inner)
    ∧ u = outer ++ String "!" inner
    ∧ PyStr.contains "!" inner = false
    ∧ (PyStr.contains "!" outer = false →
       Minato.cached_path env outer true fd fe w
       = if is_local env outer then
           match extract_path env outer with
           | Ok key => Minato.pipeline env key true fd fe w
           | Raise e => (Raise e, w)
           end
         else Minato.pipeline env outer true fd fe w)
    ∧ Minato.cached_path env u ex fd fe w
      = match Minato.cached_path env outer true fd fe w with
        | (Raise e, w1) => (Raise e, w1)
        | (Ok archive_path, w1) =>
            if Disk.is_dir archive_path (disk w1) then
              match extract_path env inner with
              | Ok file_path => (Ok (Disk.path_join archive_path file_path), w1)
              | Raise e => (Raise e, w1)
              end
            else (Raise ValueError, w1)
        end
    ∧ (extract_path env inner = Disk.normalize_inner inner →
       ∀ archive_path w1,
         Minato.cached_path env outer true fd fe w = (Ok archive_path, w1) →
         Disk.is_dir archive_path (disk w1) = true →
         Minato.cached_path env u ex fd fe w
         = if Disk.escapes 0 (Disk.parts inner) then (Raise ValueError, w1)
           else (Ok (Disk.extend archive_path (Disk.parts inner)), w1)).
Proof.
  intros Hbang.
  destruct (PyStr.rsplit1 "!" u) as [[outer inner]|] eqn:Hsplit.
  2: { apply rsplit1_None in Hsplit. congruence. }
  exists outer, inner.
  destruct (rsplit1_Some _ _ _ _ Hsplit) as [Hu Hinner].
  split; [done|]. split; [done|]. split; [done|].
  pose proof (rsplit1_shorter _ _ _ _ Hsplit) as Hlen.
  assert (Minato.cached_path env u ex fd fe w
          = match Minato.cached_path env outer true fd fe w with
            | (Raise e, w1) => (Raise e, w1)
            | (Ok archive_path, w1) =>
                if Disk.is_dir archive_path (disk w1) then
                  match extract_path env inner with
                  | Ok file_path =>
                      (Ok (Disk.path_join archive_path file_path), w1)
                  | Raise e => (Raise e, w1)
                  end
                else (Raise ValueError, w1)
            end) as Hstep.
  { unfold Minato.cached_path at 1. cbn [Minato.cached_path_rec]. rewrite Hsplit.
    rewrite (cached_path_rec_fuel _ (S (String.length outer)) outer) by lia.
    fold (Minato.cached_path env outer true fd fe).
    unfold mbind, M_bind.
    destruct (Minato.cached_path env outer true fd fe w) as [[ap|e] w1]; [|done].
    unfold Util.is_dir, gets. destruct (Disk.is_dir ap (disk w1)); cbn; [|done].
    unfold of_result. by destruct (extract_path env inner). }
  split; [|split; [exact Hstep|]].
  - intros Houter%rsplit1_None.
    unfold Minato.cached_path. cbn [Minato.cached_path_rec]. rewrite Houter.
    destruct (is_local env outer); [|done].
    unfold mbind, M_bind, of_result.
    destruct (extract_path env outer) as [key|e]; [|done].
    unfold Util.is_archive_file, gets. done.
  - intros Hnorm archive_path w1 Houter Hdir.
    rewrite Hstep, Houter, Hdir, Hnorm. unfold Disk.normalize_inner.
    rewrite parts_lstrip.
    destruct (Disk.escapes 0 (Disk.parts inner)); [done|].
    by rewrite path_join_lstrip.
Qed.

(** A reference without the marker: the local shortcut, or the pipeline. *)
Lemma plain_reference_resolution u ex fd fe w :
  PyStr.contains "!" u = false →
  Minato.cached_path env u ex fd fe w
  = if is_local env u then
      match extract_path env u with
      | Ok key =>
          if negb ex && negb (Disk.is_archive_file key (disk w))
          then (Ok key, w)
          else Minato.pipeline env key ex fd fe w
      | Raise e => (Raise e, w)
      end
    else Minato.pipeline env u ex fd fe w.
Proof.
  intros Hbang%rsplit1_None.
  unfold Minato.cached_path. cbn [Minato.cached_path_rec]. rewrite Hbang.
  destruct (is_local env u); [|done].
  unfold mbind, M_bind, of_result.
  destruct (extract_path env u) as [key|e]; [|done].
  unfold Util.is_archive_file, gets.
  by destruct (negb ex && negb (Disk.is_archive_file key (disk w))).
Qed.
End Nested.

(** ** Resolving a reference, and resolving it again *)

Section Resolutions.
Variable env : Env.

(** C7, as the code has it: for a reference without the marker that is not
    answered by the local shortcut, and a store whose recorded extraction
    directory for that reference exists, the path a successful
    [cached_path] returns exists on disk when the call returns.  [key] is
    the reference the store is asked about: the local path behind a local
    reference, the reference itself otherwise. *)
Theorem resolved_path_exists u key ex fd fe w p w' :
  PyStr.contains "!" u = false →
  (if is_local env u
   then extract_path env u = Ok key
        ∧ (ex = true ∨ Disk.is_archive_file key (disk w) = true)
   else key = u) →
  (∀ q, extraction_path (Steps.record_for env key w) = Some q →
        Disk.path_exists q (disk w) = true) →
  Minato.cached_path env u ex fd fe w = (Ok p, w') →
  Disk.path_exists p (disk w') = true.
Proof.
  intros Hbang Hkey Hrec. rewrite plain_reference_resolution by done.
  assert (Minato.pipeline env key ex fd fe w = (Ok p, w') →
          Disk.path_exists p (disk w') = true) as Hpipe.
  { intros (row & Hrow & _ & -> & Hlp & Hep & _)%pipeline_ok_facts.
    unfold Steps.chosen. cbn [extraction_path local_path to_record].
    destruct (row_extraction_path row) as [q|] eqn:Hq; [|done].
    destruct (ex || fe); [|done]. by apply Hep. }
  destruct (is_local env u).
  - destruct Hkey as [-> Hwhy].
    destruct (negb ex && negb (Disk.is_archive_file key (disk w))) eqn:Hshort; [|done].
    apply andb_true_iff in Hshort as [Hex%negb_true_iff Harch%negb_true_iff].
    destruct Hwhy; congruence.
  - by subst key.
Qed.

(** C8: a plain remote reference resolved once, then again without force
    flags while its record is not expired: the second call returns the
    path of the first and changes nothing, so it neither downloads nor
    extracts nor updates; over both calls the transport is invoked once if
    the artifact was missing or expired before the first call, and not at
    all otherwise. *)
Theorem second_resolution_is_idle u ex w p w1 t :
  PyStr.contains "!" u = false →
  is_local env u = false →
  Minato.cached_path env u ex false false w = (Ok p, w1) →
  Cache.expired env (Steps.record_for env u (set_now t w1)) t = false →
  Minato.cached_path env u ex false false (set_now t w1) = (Ok p, set_now t w1)
  ∧ downloads (Minato.cached_path env u ex false false (set_now t w1)).2
    = (downloads w
       + (if Steps.needs_download env (Steps.record_for env u w) false w
          then 1 else 0))%nat.
Proof.
  intros Hbang Hremote. rewrite !plain_reference_resolution by done.
  rewrite Hremote. intros Hfirst Hfresh.
  pose proof (pipeline_download_count env u ex false false w) as Hcount.
  rewrite Hfirst in Hcount. cbn [snd] in Hcount.
  apply pipeline_ok_facts in Hfirst as (row & Hrow & Hlock & -> & Hlp & _ & Hplain).
  assert (Steps.record_for env u (set_now t w1) = to_record u row) as Hrecord.
  { unfold Steps.record_for. cbn [rows set_now]. by rewrite Hrow. }
  rewrite Hrecord in Hfresh.
  assert (Minato.pipeline env u ex false false (set_now t w1)
          = (Ok (Steps.chosen (to_record u row) ex false), set_now t w1)) as Hsecond.
  { apply pipeline_idle; [done|done| |].
    - unfold Steps.needs_download.
      cbn [disk now set_now local_path to_record]. by rewrite Hlp, Hfresh.
    - unfold Steps.needs_extraction.
      cbn [disk set_now local_path extraction_path to_record andb orb].
      destruct ex; [|done].
      destruct (row_extraction_path row) as [q|] eqn:Hq; [done|].
      cbn. by apply Hplain. }
  rewrite Hsecond. split; [done|]. exact Hcount.
Qed.

(** C10: when a run of the pipeline is rolled back, nothing is left at
    [local_path], whatever was there before the run, and the next
    resolution of the reference, whatever its flags, calls the transport. *)
Theorem failure_removes_artifact_and_forces_download u ex fd fe w e w1 :
  let c := Steps.record_for env u w in
  Minato.pipeline env u ex fd fe w = (Raise e, w1) →
  rollback_catches e = true →
  Disk.path_exists (local_path c) (disk w1) = false
  ∧ ∀ ex' fd' fe',
      downloads (Minato.pipeline env u ex' fd' fe' w1).2 = (downloads w1 + 1)%nat.
Proof.
  intros c Hrun Hcatch.
  destruct (pipeline_raise_facts env u ex fd fe w e w1 Hrun Hcatch)
    as (Hrow & _ & Hgone). fold c in Hrow, Hgone.
  split; [done|]. intros ex' fd' fe'.
  rewrite pipeline_download_count.
  unfold Steps.record_for at 1. rewrite Hrow.
  unfold Steps.needs_download. cbn [local_path to_record to_row row_local_path].
  by rewrite Hgone.
Qed.
End Resolutions.

(** ** Further properties of [cached_path] *)

Section MoreResolutions.
Variable env : Env.

(** X4: an identifier built as [outer + "!" + inner], with no marker in
    [inner], is split back into exactly [outer] and [inner], whether or not
    [outer] holds markers of its own. *)
Theorem split_of_joined_reference (outer inner : string) :
  PyStr.contains "!" inner = false →
  PyStr.rsplit1 "!" (outer ++ String "!" inner) = Some (outer, inner).
Proof.
  intros Hinner%rsplit1_None.
  induction outer as [|d outer IH]; simpl.
  - by rewrite Hinner.
  - by rewrite IH.
Qed.

Lemma nested_unfold u outer inner ex fd fe w :
  PyStr.rsplit1 "!" u = Some (outer, inner) →
  Minato.cached_path env u ex fd fe w
  = match Minato.cached_path env outer true fd fe w with
    | (Raise e, w1) => (Raise e, w1)
    | (Ok archive_path, w1) =>
        if Disk.is_dir archive_path (disk w1) then
          match extract_path env inner with
          | Ok file_path => (Ok (Disk.path_join archive_path file_path), w1)
          | Raise e => (Raise e, w1)
          end
        else (Raise ValueError, w1)
    end.
Proof.
  intros Hsplit.
  pose proof (rsplit1_shorter _ _ _ _ Hsplit) as Hlen.
  unfold Minato.cached_path at 1. cbn [Minato.cached_path_rec]. rewrite Hsplit.
  rewrite (cached_path_rec_fuel env _ (S (String.length outer)) outer) by lia.
  fold (Minato.cached_path env outer true fd fe).
  unfold mbind, M_bind.
  destruct (Minato.cached_path env outer true fd fe w) as [[ap|e] w1]; [|done].
  unfold Util.is_dir, gets. destruct (Disk.is_dir ap (disk w1)); cbn; [|done].
  unfold of_result. by destruct (extract_path env inner).
Qed.

(** X5: a local reference to a file that is no archive, resolved without
    [extract], comes back as the path [extract_path] gives, and the world is
    untouched: no lock, no record, no transfer, and no look at whether the
    file exists. *)
Theorem local_plain_file_bypasses_cache u key fd fe w :
  PyStr.contains "!" u = false →
  is_local env u = true →
  extract_path env u = Ok key →
  Disk.is_archive_file key (disk w) = false →
  Minato.cached_path env u false fd fe w = (Ok key, w).
Proof.
  intros Hbang Hlocal Hkey Harch.
  rewrite plain_reference_resolution by done.
  by rewrite Hlocal, Hkey, Harch.
Qed.

(** X7: a nested reference into a resource that turns out to be no archive
    raises [ValueError] only after the resource has been downloaded and
    recorded; that error is raised outside the [try], so nothing is rolled
    back: the file stays in the cache and its record in the store. *)
Theorem nested_into_plain_file_fails_after_caching outer inner fd fe w :
  let c := Steps.record_for env outer w in
  let out := Minato.cached_path env (outer ++ String "!" inner) false fd fe w in
  PyStr.contains "!" outer = false →
  PyStr.contains "!" inner = false →
  is_local env outer = false →
  extraction_path c = None →
  Steps.needs_download env c fd w = true →
  transport env (Steps.entered env outer w) outer = Fetched false →
  out.1 = Raise ValueError
  ∧ Disk.is_archive_file (local_path c) (disk out.2) = false
  ∧ Disk.path_exists (local_path c) (disk out.2) = true
  ∧ is_Some (rows out.2 !! outer)
  ∧ downloads out.2 = (downloads w + 1)%nat.
Proof.
  intros c out Houter Hinner Hremote Hnone Hneed Htr. subst out.
  rewrite (nested_unfold _ outer inner)
    by (by apply split_of_joined_reference).
  rewrite plain_reference_resolution by done. rewrite Hremote.
  destruct (pipeline_download_only env outer true fd fe w false Hneed Htr)
    as (w1 & -> & Hdisk & Hrow & Hdl & _).
  { unfold Steps.needs_extraction. cbn [disk set_disk].
    rewrite written_file_is_archive. apply andb_false_r. }
  fold c in Hdisk, Hrow.
  unfold Steps.chosen. fold c. rewrite Hnone.
  assert (Disk.is_dir (local_path c) (disk w1) = false) as ->.
  { rewrite Hdisk. unfold Disk.is_dir, Disk.write_file.
    rewrite lookup_insert_eq. by apply bool_decide_eq_false. }
  cbn [fst snd]. rewrite Hdisk, Hrow.
  split; [done|]. split; [apply written_file_is_archive|].
  split; [apply written_file_exists|]. split; [eauto|done].
Qed.
End MoreResolutions.

(** ** [Minato.remove] *)

Section Removal.

(** X9: removing a recorded reference by its url succeeds, deletes its
    row and nothing else from the table, and on disk deletes exactly what
    lies at or below [local_path] and at or below [extraction_path];
    every other path is kept. *)
Theorem remove_deletes_files_and_record u r w :
  let out := Minato.remove (inr u) w in
  rows w !! u = Some r →
  out.1 = Ok tt
  ∧ rows out.2 = base.delete u (rows w)
  ∧ ∀ q, disk out.2 !! q
         = if Disk.within (row_local_path r) q then None
           else match row_extraction_path r with
                | Some e => if Disk.within e q then None else disk w !! q
                | None => disk w !! q
                end.
Proof.
  intros out Hrow. subst out.
  unfold Minato.remove, mbind, M_bind, Cache.by_url. rewrite Hrow.
  unfold Util.remove_file_or_directory, Cache.delete, modify.
  cbn [local_path extraction_path url to_record].
  destruct (row_extraction_path r) as [e|]; cbn [fst snd mret M_ret];
    autorewrite with world.
  - split; [done|]. split; [done|]. intros q. rewrite !lookup_remove.
    by destruct (Disk.within e q), (Disk.within (row_local_path r) q).
  - split; [done|]. split; [done|]. intros q. by rewrite lookup_remove.
Qed.

Lemma remove_row_gone u r w :
  rows w !! u = Some r →
  (Minato.remove (inr u) w).1 = Ok tt
  ∧ rows (Minato.remove (inr u) w).2 = base.delete u (rows w).
Proof.
  intros Hrow.
  unfold Minato.remove, mbind, M_bind, Cache.by_url. rewrite Hrow.
  unfold Util.remove_file_or_directory, Cache.delete, modify.
  cbn [local_path extraction_path url to_record].
  by destruct (row_extraction_path r).
Qed.

Lemma remove_unknown_url u w :
  rows w !! u = None → Minato.remove (inr u) w = (Raise KeyError, w).
Proof.
  intros Hrow. unfold Minato.remove, mbind, M_bind, Cache.by_url. by rewrite Hrow.
Qed.

(** X10: removal is not idempotent: whatever the first [remove] of a url
    did, a second one raises [KeyError], and it does so before it has
    touched the disk or the table. *)
Theorem remove_twice_raises_key_error u w :
  let w1 := (Minato.remove (inr u) w).2 in
  Minato.remove (inr u) w1 = (Raise KeyError, w1).
Proof.
  intros w1. apply remove_unknown_url. subst w1.
  destruct (rows w !! u) as [r|] eqn:Hrow.
  - destruct (remove_row_gone u r w Hrow) as [_ ->]. apply lookup_delete_eq.
  - by rewrite remove_unknown_url.
Qed.

(** X11: removing a reference and resolving it again starts afresh: the
    record is gone, so [add] creates a new one, the artifact is gone, so the
    run calls the transport, whatever the flags.  The removed record kept
    its artifact where the cache puts the artifacts of its url. *)
Theorem remove_then_resolve_downloads_again (env : Env) u r ex fd fe w :
  let w1 := (Minato.remove (inr u) w).2 in
  rows w !! u = Some r →
  row_local_path r = artifact_path env u →
  rows w1 !! u = None
  ∧ id (Steps.record_for env u w1) = next_id w
  ∧ downloads (Minato.pipeline env u ex fd fe w1).2 = (downloads w1 + 1)%nat.
Proof.
  intros w1 Hrow Hpath.
  assert (rows w1 !! u = None) as Hgone.
  { subst w1. destruct (remove_row_gone u r w Hrow) as [_ ->].
    apply lookup_delete_eq. }
  assert (disk w1 !! artifact_path env u = None ∧ next_id w1 = next_id w)
    as [Hdisk Hid].
  { subst w1. unfold Minato.remove, mbind, M_bind, Cache.by_url. rewrite Hrow.
    unfold Util.remove_file_or_directory, Cache.delete, modify.
    cbn [local_path extraction_path url to_record]. rewrite Hpath.
    destruct (row_extraction_path r) as [e|]; cbn [fst snd mret M_ret];
      autorewrite with world; rewrite ?lookup_remove, within_refl;
      (split; [|done]); by repeat case_match. }
  split; [done|].
  split; [unfold Steps.record_for; by rewrite Hgone|].
  rewrite pipeline_download_count.
  unfold Steps.record_for. rewrite Hgone.
  unfold Steps.needs_download, Disk.path_exists. cbn [local_path].
  rewrite Hdisk. rewrite bool_decide_eq_false_2 by (by intros [? ?]). done.
Qed.

(** X12: removal by id.  When it succeeds, a record with that id was in the
    table, its row is gone and nothing is left at its [local_path]; when it
    fails, the error is [KeyError], no record has that id, and nothing was
    touched. *)
Theorem remove_by_id_outcomes i w :
  let out := Minato.remove (inl i) w in
  match out.1 with
  | Ok _ =>
      ∃ u r, rows w !! u = Some r ∧ row_id r = i
             ∧ rows out.2 = base.delete u (rows w)
             ∧ Disk.path_exists (row_local_path r) (disk out.2) = false
  | Raise e =>
      e = KeyError ∧ out.2 = w
      ∧ ∀ u r, rows w !! u = Some r → row_id r ≠ i
  end.
Proof.
  intros out. subst out.
  unfold Minato.remove, mbind, M_bind, Cache.by_id.
  destruct (List.find _ _) as [[u r]|] eqn:Hfind.
  - apply List.find_some in Hfind as [Hin Hid].
    apply list_elem_of_In, elem_of_map_to_list in Hin.
    apply Z.eqb_eq in Hid. cbn [fst snd] in Hid.
    unfold Util.remove_file_or_directory, Cache.delete, modify.
    cbn [local_path extraction_path url to_record fst snd].
    assert (∀ d, Disk.path_exists (row_local_path r)
                   (Disk.remove_file_or_directory (row_local_path r) d) = false)
      as Hlp by (intros d; apply remove_gone, within_refl).
    destruct (row_extraction_path r) as [e|]; cbn [fst snd mret M_ret];
      exists u, r; autorewrite with world; repeat split; try done.
    unfold Disk.path_exists. rewrite !lookup_remove, within_refl.
    apply bool_decide_eq_false. intros [? ?]. by repeat case_match.
  - cbn [fst snd]. split; [done|]. split; [done|].
    intros u r Hrow Hid.
    pose proof (List.find_none _ _ Hfind (u, r)) as Hnone.
    cbn [fst snd] in Hnone. rewrite Hid, Z.eqb_refl in Hnone.
    assert (In (u, r) (map_to_list (rows w))) as Hin
      by (by apply list_elem_of_In, elem_of_map_to_list).
    by apply Hnone in Hin.
Qed.
End Removal.

(** ** [Minato.open] and the module-level functions *)

Section Wrappers.

(** The test of [open] sends the target through [cached_path] unless the
    mode holds all four of [a], [w], [x] and [+]. *)
Lemma open_uses_cache_spec mode use_cache :
  Minato.open_uses_cache mode use_cache = false
  ↔ use_cache = false
    ∨ (PyStr.contains "a" mode = true ∧ PyStr.contains "w" mode = true
       ∧ PyStr.contains "x" mode = true ∧ PyStr.contains "+" mode = true).
Proof.
  unfold Minato.open_uses_cache.
  destruct use_cache, (PyStr.contains "a" mode), (PyStr.contains "w" mode),
    (PyStr.contains "x" mode), (PyStr.contains "+" mode); cbn;
    intuition congruence.
Qed.

(** C5, on the code: with [use_cache] set, the pure append mode, the
    exclusive-creation mode and the write modes all go through
    [cached_path]; opening a remote target for appending downloads it into
    the cache and opens the cached copy. *)
Theorem open_append_goes_through_cache :
  Minato.open_uses_cache "a" true = true
  ∧ Minato.open_uses_cache "x" true = true
  ∧ Minato.open_uses_cache "w" true = true
  ∧ Minato.open_uses_cache "w+" true = true
  ∧ trace (Minato.open Examples.env_zip Examples.a_url "a" false true false false
             Examples.empty_world).2
    = [ EvAdd Examples.a_url;
        EvDownload Examples.a_url "/cache/http://h/a.zip" None;
        EvUpdate Examples.a_url;
        EvOpen "/cache/http://h/a.zip" "a" ].
Proof. vm_compute. repeat split; done. Qed.

(** C9: the module-level [open] and [cached_path] pass keywords that the
    methods of [Minato] do not take, and end with [TypeError] before the
    method body runs; [remove_cache] and [delete] name attributes that
    [Minato] does not have, and end with [AttributeError].  The world is
    left as it was. *)
Theorem module_level_functions_fail (Config_load : option string → Env) :
  (∀ u mode ex au uc fd fe root days w,
     Package.open Config_load u mode ex au uc fd fe root days w = (Raise TypeError, w))
  ∧ (∀ u ex au fd fe retry root days w,
       Package.cached_path Config_load u ex au fd fe retry root days w
       = (Raise TypeError, w))
  ∧ (∀ u root w, Package.remove_cache Config_load u root w = (Raise AttributeError, w))
  ∧ (∀ u w, Package.delete Config_load u w = (Raise AttributeError, w)).
Proof. repeat split; intros; reflexivity. Qed.

(** X13: the module-level [download] does reach its method: its two
    positional arguments bind, the transfer runs in the world as it is, and
    its outcome is the outcome of the call, [None] on success. *)
Theorem module_level_download_reaches_transport (Config_load : option string → Env)
    u filename w :
  Package.download Config_load u filename w
  = match Util.download (Config_load None) u filename w with
    | (Ok _, w') => (Ok Py.VNone, w')
    | (Raise e, w') => (Raise e, w')
    end.
Proof.
  unfold Package.download, Py.call_method, MinatoClass.attributes.
  cbn [Py.getattr Py.assoc of_result]. unfold mbind, M_bind. cbn.
  unfold Minato.download. by destruct (Util.download _ _ _ _) as [[[]|?] ?].
Qed.
End Wrappers.

(** ** The progress bar *)

Section ProgressFacts.
Variable F : Type.
Variable fzero : F.
Variable clock : nat → F.
Variable fsub : F → F → F.
Variable ema_update : F → F → F.
Variable T : Type.
Variable render : ProgressBar.state F T → F → Result string.

Local Abbreviation init := (ProgressBar.init F fzero clock T).
Local Abbreviation show := (ProgressBar.show F clock T render).
Local Abbreviation update := (ProgressBar.update F clock fsub ema_update T render).
Local Abbreviation enter := (ProgressBar.enter F clock T render).
Local Abbreviation yield_all := (ProgressBar.yield_all F clock fsub ema_update T render).
Local Abbreviation iter := (ProgressBar.iter F clock fsub ema_update T render).


(** X15: when the bar has a total, it yields exactly that many items: the
    [k]-th item exists if and only if [k] is below the total.  A total of
    zero comes from a negative count only. *)
Theorem total_is_number_of_items a off by_env t n :
  let st := init a off by_env t in
  ProgressBar.total F T st = Some n →
  (∀ k, is_Some (ProgressBar.nth_item T (ProgressBar.iterable_of F T st) k)
        ↔ (Z.of_nat k < n)%Z)
  ∧ (n = 0%Z → ∃ m, (m < 0)%Z ∧ a = ProgressBar.SrcInt T m).
Proof.
  intros st. subst st. unfold ProgressBar.init.
  destruct a as [|m|items|items]; cbn [ProgressBar.truthy].
  - done.
  - destruct (Z.eqb_spec m 0) as [->|Hm]; cbn [negb ProgressBar.total
      ProgressBar.iterable_of]; [done|].
    intros [= <-]. split.
    + intros k. cbn [ProgressBar.nth_item].
      destruct (Z.ltb_spec (Z.of_nat k) m); split; intros H'; try lia;
        try (by eauto); by destruct H'.
    + intros Hz. exists m. split; [lia|done].
  - destruct items as [|x items]; cbn [length Nat.eqb negb ProgressBar.total
      ProgressBar.iterable_of]; [done|].
    intros [= <-]. split.
    + intros k. cbn [ProgressBar.nth_item]. rewrite fmap_is_Some.
      rewrite lookup_lt_is_Some. cbn [length]. lia.
    + cbn [length]. lia.
  - done.
Qed.

(** The state of the bar apart from what was written and how often the
    clock was read. *)
Lemma show_disabled st :
  ProgressBar.disable F T st = true → show st = (Ok tt, st).
Proof. intros H. unfold ProgressBar.show, mbind, M_bind, gets. by rewrite H. Qed.

Lemma update_disabled n st :
  ProgressBar.disable F T st = true →
  ∃ st', update n st = (Ok tt, st')
    ∧ ProgressBar.disable F T st' = true
    ∧ ProgressBar.output F T st' = ProgressBar.output F T st
    ∧ ProgressBar.iterations F T st' = (ProgressBar.iterations F T st + n)%Z.
Proof.
  intros Hoff.
  unfold ProgressBar.update, mbind, M_bind, ProgressBar.time, gets,
    ProgressBar.set_interval_ema, ProgressBar.set_iterations,
    ProgressBar.set_last_time, modify.
  cbn -[ProgressBar.show].
  rewrite show_disabled by done. eexists. split; [reflexivity|]. by cbn.
Qed.

Lemma yield_all_disabled its st :
  ProgressBar.disable F T st = true →
  ∃ st', yield_all its st = (Ok its, st')
    ∧ ProgressBar.disable F T st' = true
    ∧ ProgressBar.output F T st' = ProgressBar.output F T st
    ∧ ProgressBar.iterations F T st'
      = (ProgressBar.iterations F T st + Z.of_nat (length its))%Z.
Proof.
  revert st. induction its as [|x its IH]; intros st Hoff.
  - exists st. cbn. repeat split; try done. lia.
  - cbn [ProgressBar.yield_all]. unfold mbind, M_bind.
    destruct (update_disabled 1 st Hoff) as (st1 & -> & Hoff1 & Hout1 & Hit1).
    destruct (IH st1 Hoff1) as (st' & -> & Hoff' & Hout & Hit).
    exists st'. cbn [length]. repeat split; try done; [congruence|lia].
Qed.

(** X16: a disabled bar still iterates and still counts, and it writes
    nothing while it runs; but when the loop is over it writes the sequence
    that shows the cursor and ends the line, as an enabled bar does. *)
Theorem disabled_bar_writes_only_cursor_restore its st :
  ProgressBar.disable F T st = true →
  ∃ st', iter its st = (Ok its, st')
    ∧ ProgressBar.output F T st'
      = (ProgressBar.output F T st ++ [ProgressBar.show_cursor])%list
    ∧ ProgressBar.iterations F T st' = Z.of_nat (length its).
Proof.
  intros Hoff.
  unfold ProgressBar.iter, mbind, M_bind, ProgressBar.set_iterations, modify,
    ProgressBar.time, ProgressBar.set_start_time, ProgressBar.with_self,
    ProgressBar.enter, mbind, M_bind, ProgressBar.set_iterations, modify,
    ProgressBar.time, ProgressBar.set_start_time.
  cbn -[ProgressBar.show ProgressBar.yield_all ProgressBar.exit].
  rewrite show_disabled by done.
  match goal with
  | |- context [yield_all its ?s] =>
      destruct (yield_all_disabled its s) as (st' & Heq & _ & Hout & Hit);
        [done|]; rewrite Heq
  end.
  eexists. split; [reflexivity|]. cbn in *. rewrite Hout, Hit. split; [done|lia].
Qed.

Lemma show_raises st e st1 :
  show st = (Raise e, st1) →
  ProgressBar.output F T st1 = ProgressBar.output F T st.
Proof.
  unfold ProgressBar.show, mbind, M_bind, gets, ProgressBar.time, of_result,
    ProgressBar.write, modify.
  destruct (ProgressBar.disable F T st); [done|].
  destruct (render _ _); [done|]. by intros [= _ <-].
Qed.

Lemma enter_raises st e st1 :
  enter st = (Raise e, st1) →
  ProgressBar.output F T st1 = ProgressBar.output F T st.
Proof.
  unfold ProgressBar.enter, mbind, M_bind, ProgressBar.set_iterations, modify,
    ProgressBar.time, ProgressBar.set_start_time.
  cbn -[ProgressBar.show].
  match goal with
  | |- context [show ?s] => destruct (show s) as [[[]|e'] st'] eqn:Hshow
  end; [done|].
  intros [= _ <-]. by rewrite (show_raises _ _ _ Hshow).
Qed.

(** X17: every way out of an iteration that got past [__enter__] ends with
    the sequence that shows the cursor again, also when rendering raises in
    the middle of the loop; when the first [show] itself raises, the
    exception leaves [__iter__] with nothing written at all. *)
Theorem cursor_restored_once_entered its st :
  let out := iter its st in
  last (ProgressBar.output F T out.2) = Some ProgressBar.show_cursor
  ∨ (∃ e, out.1 = Raise e)
    ∧ ProgressBar.output F T out.2 = ProgressBar.output F T st.
Proof.
  intros out. subst out.
  unfold ProgressBar.iter, mbind, M_bind, ProgressBar.set_iterations, modify,
    ProgressBar.time, ProgressBar.set_start_time, ProgressBar.with_self.
  cbn -[ProgressBar.enter ProgressBar.yield_all ProgressBar.exit].
  match goal with
  | |- context [enter ?s] => destruct (enter s) as [[[]|e] st1] eqn:Henter
  end.
  - left. destruct (yield_all its st1) as [r st2].
    unfold ProgressBar.exit, ProgressBar.write, modify. cbn. apply last_snoc.
  - right. cbn [fst snd]. split; [by exists e|].
    by rewrite (enter_raises _ _ _ Henter).
Qed.
End ProgressFacts.

(** ** A bar over a negative count *)

Section LineFacts.
Variable F : Type.
Variable fzero : F.
Variable clock : nat → F.
Variable fsub : F → F → F.
Variable ema_update : F → F → F.
Variable T : Type.
Variable Fields : Type.
Variable fields : ProgressBar.state F T → F → Result Fields.
Variable sizeof_formatter : Z → Result string.
Variable unbounded_line : Fields → Result string.
Variable bounded_line : Fields → string → Z → Z → Result string.

Local Abbreviation render :=
  (ProgressLine.render F T Fields fields sizeof_formatter unbounded_line
     bounded_line).
Local Abbreviation init := (ProgressBar.init F fzero clock T).
Local Abbreviation enter := (ProgressBar.enter F clock T render).
Local Abbreviation iter := (ProgressBar.iter F clock fsub ema_update T render).

Local Abbreviation formatting_returns :=
  (ProgressLine.formatting_returns F T Fields fields sizeof_formatter).

Lemma render_zero_total st t :
  ProgressBar.total F T st = Some 0%Z →
  ∃ e, render st t = Raise e
       ∧ (formatting_returns → e = ProgressLine.ZeroDivisionError).
Proof.
  intros Htotal. unfold ProgressLine.render. rewrite Htotal.
  destruct (fields st t) as [c|e] eqn:Hfields.
  - destruct (sizeof_formatter 0) as [tw|e] eqn:Hfmt; cbn.
    + by exists ProgressLine.ZeroDivisionError.
    + exists e. split; [done|]. intros [_ [tw Htw]]. congruence.
  - exists e. split; [done|]. intros [Hf _].
    destruct (Hf st t) as [c Hc]. congruence.
Qed.

Lemma enter_zero_total st :
  ProgressBar.disable F T st = false →
  ProgressBar.total F T st = Some 0%Z →
  ∃ e st', enter st = (Raise e, st')
    ∧ ProgressBar.output F T st' = ProgressBar.output F T st
    ∧ (formatting_returns → e = ProgressLine.ZeroDivisionError).
Proof.
  intros Hon Htotal.
  unfold ProgressBar.enter, ProgressBar.show, mbind, M_bind,
    ProgressBar.set_iterations, ProgressBar.set_start_time, ProgressBar.time,
    modify, gets, of_result.
  cbn -[ProgressLine.render]. rewrite Hon.
  match goal with
  | |- context [ProgressLine.render _ _ _ _ _ _ _ ?s ?t] =>
      destruct (render_zero_total s t Htotal) as (e & -> & He)
  end.
  by eexists _, _.
Qed.

(** X18: a bar made from a negative count has the total zero and nothing
    to hand out, and unless it is disabled it cannot be shown: iterating it
    raises from the first [show], before anything is written, and the
    exception is [ZeroDivisionError], from the percentage, when the
    formatting before it returns normally. *)
Theorem negative_count_raises_on_first_show m off by_env t its :
  let st := init (ProgressBar.SrcInt T m) off by_env t in
  let out := iter its st in
  (m < 0)%Z →
  off || by_env = false →
  ProgressBar.total F T st = Some 0%Z
  ∧ ProgressBar.items_of T (ProgressBar.iterable_of F T st) = Some []
  ∧ ∃ e, out.1 = Raise e
         ∧ ProgressBar.output F T out.2 = []
         ∧ (formatting_returns → e = ProgressLine.ZeroDivisionError).
Proof.
  intros st out Hneg Hon.
  assert (ProgressBar.total F T st = Some 0%Z) as Htotal.
  { subst st. unfold ProgressBar.init. cbn [ProgressBar.truthy].
    destruct (Z.eqb_spec m 0) as [->|_]; [lia|].
    cbn [negb ProgressBar.total]. f_equal. lia. }
  split; [exact Htotal|]. split.
  { subst st. unfold ProgressBar.init. cbn [ProgressBar.truthy].
    destruct (Z.eqb_spec m 0) as [->|_]; [lia|].
    cbn [negb ProgressBar.iterable_of ProgressBar.items_of].
    by replace (Z.to_nat m) with 0%nat by lia. }
  assert (ProgressBar.disable F T st = false) as Hdis by (subst st; done).
  assert (ProgressBar.output F T st = []) as Hout by (subst st; done).
  subst out. clearbody st.
  unfold ProgressBar.iter, mbind, M_bind, ProgressBar.set_iterations, modify,
    ProgressBar.time, ProgressBar.set_start_time, ProgressBar.with_self.
  cbn -[ProgressBar.enter].
  match goal with
  | |- context [ProgressBar.enter _ _ _ _ ?s] =>
      destruct (enter_zero_total s) as (e & st' & -> & Hsame & He);
        [exact Hdis|exact Htotal|]
  end.
  exists e. cbn [fst snd]. split; [done|]. split; [|exact He].
  by rewrite Hsame.
Qed.
End LineFacts.

(** ** Instances and counterexamples *)

Section Instances.
Import Examples.

Lemma download_iff_missing_expired_or_forced_witness :
  Steps.needs_download env_zip (Steps.record_for env_zip a_url empty_world)
    false empty_world = true
  ∧ (Minato.pipeline env_zip a_url false false false empty_world).1
    = Ok "/cache/http://h/a.zip"
  ∧ last (Steps.since empty_world
            (Minato.pipeline env_zip a_url false false false empty_world).2)
    = Some (EvUpdate a_url).
Proof.
  split; [by vm_compute|]. split; [by vm_compute|].
  apply (proj2 (download_iff_missing_expired_or_forced
                  env_zip a_url false false false empty_world)
               eq_refl "/cache/http://h/a.zip" eq_refl).
Defined.

Lemma extraction_iff_archive_and_wanted_witness :
  transport env_zip (Steps.entered env_zip a_url empty_world) a_url = Fetched true
  ∧ extractions (Minato.pipeline env_zip a_url true false false empty_world).2 = 1%nat.
Proof.
  split; [done|].
  apply (proj1 (extraction_iff_archive_and_wanted
                  env_zip a_url true false false empty_world true eq_refl)).
Defined.

Lemma rollback_then_reraise_witness :
  let out := Minato.pipeline env_corrupt a_url true false false cached_world in
  let ev := EvExtract "/cache/http://h/a.zip" "/cache/http://h/a.zip-extracted"
              true (Some KeyboardInterrupt) in
  ev ∈ Steps.since cached_world out.2
  ∧ failure_of ev = Some KeyboardInterrupt
  ∧ rollback_catches KeyboardInterrupt = true
  ∧ out.1 = Raise KeyboardInterrupt.
Proof.
  assert (EvExtract "/cache/http://h/a.zip" "/cache/http://h/a.zip-extracted"
            true (Some KeyboardInterrupt)
          ∈ Steps.since cached_world
              (Minato.pipeline env_corrupt a_url true false false cached_world).2)
    as Hin by (vm_compute; constructor).
  intros out ev. split; [exact Hin|].
  split; [reflexivity|]. split; [reflexivity|].
  apply (proj1 (rollback_then_reraise env_corrupt a_url true false false
                  cached_world _ KeyboardInterrupt Hin eq_refl eq_refl)).
Defined.

(** C3 as stated fails: [extract] is requested, the artifact now in the
    cache is no archive, and the run returns the directory recorded for
    an earlier version of the resource instead of [local_path]. *)
Lemma extract_on_plain_file_returns_old_directory :
  let w1 := (Minato.cached_path env_changing a_url true false false empty_world).2 in
  let out := Minato.cached_path env_changing a_url true true false w1 in
  Disk.is_archive_file "/cache/http://h/a.zip" (disk out.2) = false
  ∧ rows w1 !! a_url
    = Some (mkRow 1 "/cache/http://h/a.zip" (Some "/cache/http://h/a.zip-extracted") 0 0)
  ∧ out.1 = Ok "/cache/http://h/a.zip-extracted"
  ∧ out.1 ≠ Ok "/cache/http://h/a.zip".
Proof. vm_compute. repeat split; done. Qed.



Lemma nested_reference_resolution_witness :
  let u := "http://h/a.zip!./x.txt" in
  let out := Minato.cached_path env_zip u false false false empty_world in
  PyStr.contains "!" u = true
  ∧ extract_path env_zip "./x.txt" = Disk.normalize_inner "./x.txt"
  ∧ out.1 = Ok "/cache/http://h/a.zip-extracted/x.txt"
  ∧ downloads out.2 = 1%nat
  ∧ extractions out.2 = 1%nat.
Proof.
  intros u out.
  split; [reflexivity|]. split; [reflexivity|].
  destruct (nested_reference_resolution env_zip u false false false empty_world
              eq_refl)
    as (outer & inner & Hsplit & _ & _ & Hground & _ & Hnorm).
  vm_compute in Hsplit. injection Hsplit as <- <-.
  specialize (Hground eq_refl).
  set (res := Minato.pipeline env_zip "http://h/a.zip" true false false
                empty_world) in *.
  assert (Minato.cached_path env_zip "http://h/a.zip" true false false empty_world
          = (Ok "/cache/http://h/a.zip-extracted", res.2)) as Houter.
  { rewrite Hground. vm_compute. reflexivity. }
  assert (Disk.is_dir "/cache/http://h/a.zip-extracted" (disk res.2) = true)
    as Hdir by (vm_compute; reflexivity).
  specialize (Hnorm eq_refl _ _ Houter Hdir).
  subst out. rewrite Hnorm.
  vm_compute. repeat split; reflexivity.
Defined.

Lemma resolved_path_exists_witness :
  let out := Minato.cached_path env_zip a_url true false false empty_world in
  PyStr.contains "!" a_url = false
  ∧ (if is_local env_zip a_url
     then extract_path env_zip a_url = Ok a_url
          ∧ (true = true ∨ Disk.is_archive_file a_url (disk empty_world) = true)
     else a_url = a_url)
  ∧ (∀ q, extraction_path (Steps.record_for env_zip a_url empty_world) = Some q →
          Disk.path_exists q (disk empty_world) = true)
  ∧ out = (Ok "/cache/http://h/a.zip-extracted", out.2)
  ∧ Disk.path_exists "/cache/http://h/a.zip-extracted" (disk out.2) = true.
Proof.
  intros out.
  assert (∀ q, extraction_path (Steps.record_for env_zip a_url empty_world) = Some q →
               Disk.path_exists q (disk empty_world) = true) as Hrec
    by (intros q Hq; vm_compute in Hq; discriminate).
  assert (out = (Ok "/cache/http://h/a.zip-extracted", out.2)) as Hout
    by (vm_compute; reflexivity).
  split; [reflexivity|]. split; [vm_compute; reflexivity|].
  split; [exact Hrec|]. split; [exact Hout|].
  apply (resolved_path_exists env_zip a_url a_url true false false empty_world
           "/cache/http://h/a.zip-extracted" out.2 eq_refl eq_refl Hrec Hout).
Defined.

(** C7 as stated fails: a nested reference to a member the archive does not
    hold resolves normally to a path that does not exist. *)
Lemma nested_reference_to_missing_member :
  let out := Minato.cached_path env_zip "http://h/a.zip!y.txt" false false false
               empty_world in
  out.1 = Ok "/cache/http://h/a.zip-extracted/y.txt"
  ∧ Disk.path_exists "/cache/http://h/a.zip-extracted/y.txt" (disk out.2) = false.
Proof. vm_compute. split; done. Qed.

Lemma second_resolution_is_idle_witness :
  let out := Minato.cached_path env_zip a_url true false false empty_world in
  PyStr.contains "!" a_url = false
  ∧ is_local env_zip a_url = false
  ∧ out = (Ok "/cache/http://h/a.zip-extracted", out.2)
  ∧ Cache.expired env_zip (Steps.record_for env_zip a_url (set_now 5 out.2)) 5 = false
  ∧ Minato.cached_path env_zip a_url true false false (set_now 5 out.2)
    = (Ok "/cache/http://h/a.zip-extracted", set_now 5 out.2).
Proof.
  intros out.
  assert (out = (Ok "/cache/http://h/a.zip-extracted", out.2)) as Hout
    by (vm_compute; reflexivity).
  split; [reflexivity|]. split; [reflexivity|]. split; [exact Hout|].
  split; [reflexivity|].
  apply (proj1 (second_resolution_is_idle env_zip a_url true empty_world
                  "/cache/http://h/a.zip-extracted" out.2 5
                  eq_refl eq_refl Hout eq_refl)).
Defined.

Lemma failure_removes_artifact_and_forces_download_witness :
  let out := Minato.pipeline env_corrupt a_url true false false cached_world in
  Disk.path_exists "/cache/http://h/a.zip" (disk cached_world) = true
  ∧ downloads out.2 = 0%nat
  ∧ out = (Raise KeyboardInterrupt, out.2)
  ∧ rollback_catches KeyboardInterrupt = true
  ∧ Disk.path_exists (local_path (Steps.record_for env_corrupt a_url cached_world))
      (disk out.2) = false.
Proof.
  intros out.
  assert (out = (Raise KeyboardInterrupt, out.2)) as Hout
    by (vm_compute; reflexivity).
  split; [vm_compute; reflexivity|]. split; [vm_compute; reflexivity|].
  split; [exact Hout|]. split; [reflexivity|].
  apply (proj1 (failure_removes_artifact_and_forces_download env_corrupt a_url
                  true false false cached_world KeyboardInterrupt out.2
                  Hout eq_refl)).
Defined.

(** *** Instances of the further properties *)

Import Scenarios.

Lemma other_records_untouched_witness :
  "http://h/b.txt" ≠ a_url
  ∧ rows (Minato.pipeline env_zip a_url true true true two_records).2 !! "http://h/b.txt"
    = rows two_records !! "http://h/b.txt".
Proof.
  assert ("http://h/b.txt" ≠ a_url) as Hne by (vm_compute; discriminate).
  split; [exact Hne|].
  apply (other_records_untouched env_zip a_url "http://h/b.txt" true true true
           two_records Hne).
Defined.

Lemma uncaught_failure_skips_rollback_witness :
  let out := Minato.pipeline env_torn a_url false false false empty_world in
  let ev := EvDownload a_url "/cache/http://h/a.zip" (Some GeneratorExit) in
  ev ∈ Steps.since empty_world out.2
  ∧ failure_of ev = Some GeneratorExit
  ∧ rollback_catches GeneratorExit = false
  ∧ Disk.path_exists "/cache/http://h/a.zip" (disk out.2) = true
  ∧ out.1 = Raise GeneratorExit.
Proof.
  intros out ev.
  assert (ev ∈ Steps.since empty_world out.2) as Hin
    by (vm_compute; apply list_elem_of_further; constructor).
  split; [exact Hin|]. split; [reflexivity|]. split; [reflexivity|].
  split; [vm_compute; reflexivity|].
  apply (proj1 (uncaught_failure_skips_rollback env_torn a_url false false false
                  empty_world ev GeneratorExit Hin eq_refl eq_refl)).
Defined.

Lemma extracted_path_is_directory_witness :
  let out := Minato.pipeline env_zip a_url true false false empty_world in
  let ev := EvExtract "/cache/http://h/a.zip" "/cache/http://h/a.zip-extracted"
              true None in
  out.1 = Ok "/cache/http://h/a.zip-extracted"
  ∧ ev ∈ Steps.since empty_world out.2
  ∧ is_extract ev = true
  ∧ Disk.is_dir "/cache/http://h/a.zip-extracted" (disk out.2) = true.
Proof.
  intros out ev.
  assert (out.1 = Ok "/cache/http://h/a.zip-extracted") as Hok
    by (vm_compute; reflexivity).
  assert (ev ∈ Steps.since empty_world out.2) as Hin
    by (vm_compute; do 2 apply list_elem_of_further; constructor).
  split; [exact Hok|]. split; [exact Hin|]. split; [reflexivity|].
  apply (proj1 (extracted_path_is_directory env_zip a_url true false false
                  empty_world _ ev Hok Hin eq_refl)).
Defined.

Lemma split_of_joined_reference_witness :
  PyStr.contains "!" "data/a.txt" = false
  ∧ PyStr.rsplit1 "!" ("http://h/a.zip!inner.zip" ++ String "!" "data/a.txt")
    = Some ("http://h/a.zip!inner.zip", "data/a.txt").
Proof.
  split; [reflexivity|].
  apply (split_of_joined_reference "http://h/a.zip!inner.zip" "data/a.txt" eq_refl).
Defined.

Lemma local_plain_file_bypasses_cache_witness :
  PyStr.contains "!" "/data/notes.txt" = false
  ∧ is_local env_zip "/data/notes.txt" = true
  ∧ extract_path env_zip "/data/notes.txt" = Ok "/data/notes.txt"
  ∧ Disk.is_archive_file "/data/notes.txt" (disk local_world) = false
  ∧ Minato.cached_path env_zip "/data/notes.txt" false true true local_world
    = (Ok "/data/notes.txt", local_world).
Proof.
  assert (Disk.is_archive_file "/data/notes.txt" (disk local_world) = false)
    as Hplain by (vm_compute; reflexivity).
  split; [reflexivity|]. split; [reflexivity|]. split; [reflexivity|].
  split; [exact Hplain|].
  apply (local_plain_file_bypasses_cache env_zip "/data/notes.txt" "/data/notes.txt"
           true true local_world eq_refl eq_refl eq_refl Hplain).
Defined.

Lemma nested_into_plain_file_fails_after_caching_witness :
  let c := Steps.record_for env_plain "http://h/b.txt" empty_world in
  let out := Minato.cached_path env_plain ("http://h/b.txt" ++ String "!" "x.txt")
               false false false empty_world in
  PyStr.contains "!" "http://h/b.txt" = false
  ∧ PyStr.contains "!" "x.txt" = false
  ∧ is_local env_plain "http://h/b.txt" = false
  ∧ extraction_path c = None
  ∧ Steps.needs_download env_plain c false empty_world = true
  ∧ transport env_plain (Steps.entered env_plain "http://h/b.txt" empty_world)
      "http://h/b.txt" = Fetched false
  ∧ out.1 = Raise ValueError.
Proof.
  intros c out.
  assert (Steps.needs_download env_plain c false empty_world = true) as Hneed
    by (vm_compute; reflexivity).
  split; [reflexivity|]. split; [reflexivity|]. split; [reflexivity|].
  split; [reflexivity|]. split; [exact Hneed|]. split; [reflexivity|].
  apply (proj1 (nested_into_plain_file_fails_after_caching env_plain
                  "http://h/b.txt" "x.txt" false false empty_world
                  eq_refl eq_refl eq_refl eq_refl Hneed eq_refl)).
Defined.

Lemma remove_deletes_files_and_record_witness :
  let r := mkRow 1 "/cache/http://h/a.zip" (Some "/cache/http://h/a.zip-extracted") 0 0 in
  let out := Minato.remove (inr a_url) two_records in
  rows two_records !! a_url = Some r
  ∧ out.1 = Ok tt
  ∧ rows out.2 = base.delete a_url (rows two_records).
Proof.
  intros r out.
  assert (rows two_records !! a_url = Some r) as Hrow by (vm_compute; reflexivity).
  split; [exact Hrow|].
  destruct (remove_deletes_files_and_record a_url r two_records Hrow)
    as (Hok & Hrows & _).
  split; [exact Hok|exact Hrows].
Defined.

Lemma remove_then_resolve_downloads_again_witness :
  let r := mkRow 2 "/cache/http://h/b.txt" None 0 0 in
  let w1 := (Minato.remove (inr "http://h/b.txt") two_records).2 in
  rows two_records !! "http://h/b.txt" = Some r
  ∧ row_local_path r = artifact_path env_plain "http://h/b.txt"
  ∧ downloads (Minato.pipeline env_plain "http://h/b.txt" false false false w1).2
    = (downloads w1 + 1)%nat.
Proof.
  intros r w1.
  assert (rows two_records !! "http://h/b.txt" = Some r) as Hrow
    by (vm_compute; reflexivity).
  split; [exact Hrow|]. split; [reflexivity|].
  apply (proj2 (proj2 (remove_then_resolve_downloads_again env_plain
                         "http://h/b.txt" r false false false two_records
                         Hrow eq_refl))).
Defined.


Lemma total_is_number_of_items_witness :
  let st := ProgressBar.init Z 0%Z Z.of_nat nat (ProgressBar.SrcInt nat (-3))
              false false 0 in
  ProgressBar.total Z nat st = Some 0%Z
  ∧ ∃ m, (m < 0)%Z ∧ ProgressBar.SrcInt nat (-3) = ProgressBar.SrcInt nat m.
Proof.
  intros st. split; [reflexivity|].
  apply (proj2 (total_is_number_of_items Z 0%Z Z.of_nat nat
                  (ProgressBar.SrcInt nat (-3)) false false 0 0%Z eq_refl)
               eq_refl).
Defined.

Lemma disabled_bar_writes_only_cursor_restore_witness :
  let st := ProgressBar.init Z 0%Z Z.of_nat nat (ProgressBar.SrcSized nat [4; 5])
              true false 0 in
  ProgressBar.disable Z nat st = true
  ∧ ∃ st', ProgressBar.iter Z Z.of_nat Z.sub (fun _ v => v) nat
             (fun _ _ => Raise (OtherError "unused"))
             [ProgressBar.Elem nat 4; ProgressBar.Elem nat 5] st
           = (Ok [ProgressBar.Elem nat 4; ProgressBar.Elem nat 5], st')
      ∧ ProgressBar.output Z nat st' = [ProgressBar.show_cursor].
Proof.
  intros st. split; [reflexivity|].
  destruct (disabled_bar_writes_only_cursor_restore Z Z.of_nat Z.sub (fun _ v => v)
              nat (fun _ _ => Raise (OtherError "unused"))
              [ProgressBar.Elem nat 4; ProgressBar.Elem nat 5] st eq_refl)
    as (st' & Heq & Hout & _).
  exists st'. split; [exact Heq|exact Hout].
Defined.

Lemma negative_count_raises_on_first_show_witness :
  let fields := fun (_ : ProgressBar.state Z nat) (_ : Z) => Ok tt in
  let sizeof_formatter := fun n : Z => Ok (pretty n) in
  let render := ProgressLine.render Z nat unit fields sizeof_formatter
                  (fun _ => Ok "") (fun _ text _ _ => Ok text) in
  (-3 < 0)%Z
  ∧ false || false = false
  ∧ ProgressLine.formatting_returns Z nat unit fields sizeof_formatter
  ∧ (ProgressBar.iter Z Z.of_nat Z.sub (fun _ v => v) nat render []
       (ProgressBar.init Z 0%Z Z.of_nat nat (ProgressBar.SrcInt nat (-3))
          false false 0)).1
    = Raise ProgressLine.ZeroDivisionError.
Proof.
  intros fields sizeof_formatter render.
  assert (-3 < 0)%Z as Hneg by lia.
  assert (ProgressLine.formatting_returns Z nat unit fields sizeof_formatter)
    as Hfmt by (split; [intros; by exists tt|by exists (pretty 0%Z)]).
  split; [exact Hneg|]. split; [reflexivity|]. split; [exact Hfmt|].
  destruct (negative_count_raises_on_first_show Z 0%Z Z.of_nat Z.sub
              (fun _ v => v) nat unit fields sizeof_formatter
              (fun _ => Ok "") (fun _ text _ _ => Ok text)
              (-3) false false 0 [] Hneg eq_refl)
    as (_ & _ & e & Hraise & _ & He).
  etrans; [exact Hraise|]. f_equal. exact (He Hfmt).
Defined.
End Instances.
